(** * Firmware-log schema extraction: a shallow embedding

    This development embeds [src/fw-logs/fw-logs-xml-helper.cpp] of
    librealsense: the helpers that turn a parsed XML document (definitions
    document or parser-contents document) into flat lookup tables, and the
    parameter decoder that the specification describes for
    [fw_string_formatter::generate_message].

    The XML text is parsed by rapidxml, a third-party library that is not
    part of the embedded sources; the parser is taken as a parameter and the
    tree it builds is modelled as the code walks it: a node has a name, an
    ordered list of attributes and an ordered list of children (the
    sibling chain that [first_node]/[next_sibling] traverse). *)

From Stdlib Require Import ZArith String Ascii List Lia Bool.
From stdpp Require Import base option list gmap strings pretty fin_maps.

Set Warnings "-register-all".

Local Open Scope string_scope.
Local Open Scope list_scope.
Local Open Scope Z_scope.

(** ** Outcomes of a call

    Every helper either returns, throws a C++ exception, or dereferences a
    null pointer (undefined behaviour). *)

Inductive exn : Type :=
  | invalid_value_exception (msg : string)   (* librealsense::invalid_value_exception *)
  | invalid_argument                         (* std::invalid_argument, from std::stoi *)
  | out_of_range                             (* std::out_of_range, from std::stoi *)
  | parse_error.                             (* rapidxml::parse_error *)

Inductive outcome (A : Type) : Type :=
  | Ok (a : A)
  | Throw (e : exn)
  | Undefined.

Arguments Ok {A} a.
Arguments Throw {A} e.
Arguments Undefined {A}.

#[global] Instance outcome_ret : MRet outcome := fun A a => Ok a.
#[global] Instance outcome_bind : MBind outcome := fun A B f r =>
  match r with
  | Ok a => f a
  | Throw e => Throw e
  | Undefined => Undefined
  end.

Definition is_ok {A} (r : outcome A) : bool :=
  match r with Ok _ => true | _ => false end.

(** ** The parsed tree *)

Record xml_attribute : Type := Attr { attr_name : string; attr_value : string }.

Inductive xml_node : Type :=
  Node { name : string; attributes : list xml_attribute; children : list xml_node }.

(** A document is the list of its top-level nodes; [first_node()] of the
    document is the head of that list, or null when there is none. *)
Definition xml_document : Type := list xml_node.

(** ** [std::stoi] (base 10) on an attribute value *)

Definition INT_MIN : Z := -2147483648.
Definition INT_MAX : Z := 2147483647.

Definition isspace (c : ascii) : bool :=
  let n := nat_of_ascii c in
  (n =? 32)%nat || ((9 <=? n)%nat && (n <=? 13)%nat).

Definition isdigit (c : ascii) : bool :=
  let n := nat_of_ascii c in (48 <=? n)%nat && (n <=? 57)%nat.

Definition digit_value (c : ascii) : Z := Z.of_nat (nat_of_ascii c) - 48.

Fixpoint skip_spaces (s : string) : string :=
  match s with
  | String c rest => if isspace c then skip_spaces rest else s
  | EmptyString => s
  end.

Fixpoint read_digits (acc : Z) (s : string) : Z :=
  match s with
  | String c rest => if isdigit c then read_digits (10 * acc + digit_value c) rest else acc
  | EmptyString => acc
  end.

(** The digits after the optional sign: at least one is required. *)
Definition stoi_digits (negative : bool) (s : string) : outcome Z :=
  match s with
  | String c _ =>
      if isdigit c then
        let magnitude := read_digits 0 s in
        let v := if negative then - magnitude else magnitude in
        if (INT_MIN <=? v) && (v <=? INT_MAX) then Ok v else Throw out_of_range
      else Throw invalid_argument
  | EmptyString => Throw invalid_argument
  end.

Definition stoi (str : string) : outcome Z :=
  let s := skip_spaces str in
  match s with
  | String "-" rest => stoi_digits true rest
  | String "+" rest => stoi_digits false rest
  | _ => stoi_digits false s
  end.

(** ** [std::unordered_map::insert]

    [insert] keeps the element already stored under an equal key. *)

Definition unordered_map_insert {K} `{Countable K} {V} (k : K) (v : V) (m : gmap K V) : gmap K V :=
  match m !! k with
  | Some _ => m
  | None => <[k := v]> m
  end.

Definition string_empty (s : string) : bool :=
  match s with EmptyString => true | String _ _ => false end.

(** ** Document accessors *)

Definition get_first_node (document : xml_document) : outcome (list xml_node) :=
  match document with
  | [] => Undefined                      (* root is null in root->name() *)
  | root :: _ =>
      if String.eqb (name root) "Format" then Ok (children root)
      else Throw (invalid_value_exception "XML root should be 'Format'")
  end.

(** The attribute loop shared by the accessors: the value of the first
    attribute with the given name. *)
Fixpoint find_attribute (key : string) (attrs : list xml_attribute) : option string :=
  match attrs with
  | [] => None
  | attribute :: rest =>
      if String.eqb (attr_name attribute) key then Some (attr_value attribute)
      else find_attribute key rest
  end.

Definition missing_attribute (key tag : string) : exn :=
  invalid_value_exception ("Can't find attribute '" +:+ key +:+ "' in node " +:+ tag).

Definition get_id_attribute (node : xml_node) : outcome Z :=
  match find_attribute "id" (attributes node) with
  | Some id_as_str => stoi id_as_str
  | None => Throw (missing_attribute "id" (name node))
  end.

Definition get_name_attribute (node : xml_node) : outcome string :=
  match find_attribute "Name" (attributes node) with
  | Some attr_value => Ok attr_value
  | None => Throw (missing_attribute "Name" (name node))
  end.

Definition get_verbosity_attribute (node : xml_node) : outcome Z :=
  match find_attribute "verbosity" (attributes node) with
  | Some id_as_str => stoi id_as_str
  | None => Throw (missing_attribute "verbosity" (name node))
  end.

Definition source_not_found (source_id : Z) : exn :=
  invalid_value_exception ("Did not find 'Source' node with id " +:+ pretty source_id).

Fixpoint get_source_node_loop (source_id : Z) (nodes : list xml_node) : outcome xml_node :=
  match nodes with
  | [] => Throw (source_not_found source_id)
  | node :: siblings =>
      if String.eqb (name node) "Source" then
        id ← get_id_attribute node;
        if Z.eqb source_id id then Ok node else get_source_node_loop source_id siblings
      else get_source_node_loop source_id siblings
  end.

Definition get_source_node (source_id : Z) (document : xml_document) : outcome xml_node :=
  first ← get_first_node document;
  get_source_node_loop source_id first.

Fixpoint get_file_path_loop (nodes : list xml_node) : string :=
  match nodes with
  | [] => ""
  | node :: siblings =>
      if String.eqb (name node) "File" then
        match find_attribute "Path" (attributes node) with
        | Some path => path
        | None => get_file_path_loop siblings
        end
      else get_file_path_loop siblings
  end.

Definition get_file_path (source_node : xml_node) : string :=
  get_file_path_loop (children source_node).

(** ** Events *)

Definition missing_event_data : exn :=
  invalid_value_exception "Can't find event 'numberOfArguments' or 'format'".

Fixpoint get_event_data_loop (attrs : list xml_attribute) (num_of_args : Z) (format : string)
  : outcome (Z * string) :=
  match attrs with
  | [] => Ok (num_of_args, format)
  | attribute :: rest =>
      if String.eqb (attr_name attribute) "numberOfArguments" then
        n ← stoi (attr_value attribute);
        get_event_data_loop rest n format
      else if String.eqb (attr_name attribute) "format" then
        get_event_data_loop rest num_of_args (format +:+ attr_value attribute)
      else get_event_data_loop rest num_of_args format
  end.

Definition get_event_data (node : xml_node) : outcome (Z * string) :=
  '(num_of_args, format) ← get_event_data_loop (attributes node) (-1) "";
  if (num_of_args <? 0) || string_empty format then Throw missing_event_data
  else Ok (num_of_args, format).

Fixpoint get_events_loop (nodes : list xml_node) (event_id_to_num_of_args_and_format : gmap Z (Z * string))
  : outcome (gmap Z (Z * string)) :=
  match nodes with
  | [] => Ok event_id_to_num_of_args_and_format
  | node :: siblings =>
      if String.eqb (name node) "Event" then
        id ← get_id_attribute node;
        data ← get_event_data node;
        get_events_loop siblings (unordered_map_insert id data event_id_to_num_of_args_and_format)
      else get_events_loop siblings event_id_to_num_of_args_and_format
  end.

(** ** Id-to-name tables *)

Fixpoint get_id_to_names_loop (tag : string) (nodes : list xml_node) (ids_to_names : gmap Z string)
  : outcome (gmap Z string) :=
  match nodes with
  | [] => Ok ids_to_names
  | node :: siblings =>
      if String.eqb (name node) tag then
        id ← get_id_attribute node;
        nm ← get_name_attribute node;
        get_id_to_names_loop tag siblings (unordered_map_insert id nm ids_to_names)
      else get_id_to_names_loop tag siblings ids_to_names
  end.

(** ** Module verbosity *)

Fixpoint get_source_module_verbosity_loop (nodes : list xml_node) (module_id_verbosity : gmap Z Z)
  : outcome (gmap Z Z) :=
  match nodes with
  | [] => Ok module_id_verbosity
  | node :: siblings =>
      if String.eqb (name node) "Module" then
        id ← get_id_attribute node;
        verbosity ← get_verbosity_attribute node;
        get_source_module_verbosity_loop siblings (unordered_map_insert id verbosity module_id_verbosity)
      else get_source_module_verbosity_loop siblings module_id_verbosity
  end.

(** ** Enums *)

Definition missing_enum_value (tag : string) : exn :=
  invalid_value_exception ("Can't find EnumValue 'Key' or 'Value' for enum " +:+ tag).

Fixpoint enum_value_attributes (attrs : list xml_attribute) (key : Z) (value : string)
  : outcome (Z * string) :=
  match attrs with
  | [] => Ok (key, value)
  | attribute :: rest =>
      if String.eqb (attr_name attribute) "Key" then
        k ← stoi (attr_value attribute);
        enum_value_attributes rest k value
      else if String.eqb (attr_name attribute) "Value" then
        enum_value_attributes rest key (value +:+ attr_value attribute)
      else enum_value_attributes rest key value
  end.

Fixpoint get_enum_values_loop (nodes : list xml_node) (values_to_descriptions : list (Z * string))
  : outcome (list (Z * string)) :=
  match nodes with
  | [] => Ok values_to_descriptions
  | node :: siblings =>
      if String.eqb (name node) "EnumValue" then
        '(key, value) ← enum_value_attributes (attributes node) (-1) "";
        if (key <? 0) || string_empty value then Throw (missing_enum_value (name node))
        else get_enum_values_loop siblings (values_to_descriptions ++ [(key, value)])
      else get_enum_values_loop siblings values_to_descriptions
  end.

Definition get_enum_values (enum_node : xml_node) : outcome (list (Z * string)) :=
  get_enum_values_loop (children enum_node) [].

(** The innermost loop of [get_enums] runs once per attribute of the enum
    node; [enum_name] is declared inside it, so it is empty for every
    attribute that is not [Name]. *)
Fixpoint get_enums_attribute_loop (enum_node : xml_node) (attrs : list xml_attribute)
    (enum_names_to_literals : gmap string (list (Z * string)))
  : outcome (gmap string (list (Z * string))) :=
  match attrs with
  | [] => Ok enum_names_to_literals
  | attribute :: rest =>
      let enum_name :=
        if String.eqb (attr_name attribute) "Name" then attr_value attribute else "" in
      values ← get_enum_values enum_node;
      get_enums_attribute_loop enum_node rest
        (unordered_map_insert enum_name values enum_names_to_literals)
  end.

Fixpoint get_enums_enum_node_loop (enum_nodes : list xml_node)
    (enum_names_to_literals : gmap string (list (Z * string)))
  : outcome (gmap string (list (Z * string))) :=
  match enum_nodes with
  | [] => Ok enum_names_to_literals
  | enum_node :: siblings =>
      m ← get_enums_attribute_loop enum_node (attributes enum_node) enum_names_to_literals;
      get_enums_enum_node_loop siblings m
  end.

Fixpoint get_enums_loop (nodes : list xml_node)
    (enum_names_to_literals : gmap string (list (Z * string)))
  : outcome (gmap string (list (Z * string))) :=
  match nodes with
  | [] => Ok enum_names_to_literals
  | node :: siblings =>
      if String.eqb (name node) "Enums" then
        m ← get_enums_enum_node_loop (children node) enum_names_to_literals;
        get_enums_loop siblings m
      else get_enums_loop siblings enum_names_to_literals
  end.

(** ** Loading and the entry points of [fw_logs_xml_helper] *)

(** [string_to_char_buffer]: the text followed by two NUL characters. *)
Definition string_to_char_buffer (xml_content : string) : list ascii :=
  list_ascii_of_string xml_content ++ [zero; zero].

Definition empty_xml_content : exn := invalid_value_exception "Empty XML content".

Definition missing_file (source_id : Z) : exn :=
  invalid_value_exception ("Did not find 'File' attribute for source " +:+ pretty source_id).

Section Loader.

(** [xml_document<>::parse<0>] of rapidxml: the tree, or [None] when it
    throws [parse_error]. *)
Variable xml_parse : list ascii -> option xml_document.

Definition load_external_xml (buffer : list ascii) : outcome xml_document :=
  match buffer with
  | [] => Throw empty_xml_content
  | _ :: _ =>
      match xml_parse buffer with
      | Some document => Ok document
      | None => Throw parse_error
      end
  end.

Definition get_source_parser_file_path (source_id : Z) (definitions_xml : string)
  : outcome string :=
  document ← load_external_xml (string_to_char_buffer definitions_xml);
  source_node ← get_source_node source_id document;
  let path := get_file_path source_node in
  if string_empty path then Throw (missing_file source_id) else Ok path.

Definition get_source_module_verbosity (source_id : Z) (definitions_xml : string)
  : outcome (gmap Z Z) :=
  document ← load_external_xml (string_to_char_buffer definitions_xml);
  source_node ← get_source_node source_id document;
  get_source_module_verbosity_loop (children source_node) ∅.

Definition get_events (parser_contents : string) : outcome (gmap Z (Z * string)) :=
  document ← load_external_xml (string_to_char_buffer parser_contents);
  first ← get_first_node document;
  get_events_loop first ∅.

Definition get_id_to_names (parser_contents : string) (tag : string) : outcome (gmap Z string) :=
  document ← load_external_xml (string_to_char_buffer parser_contents);
  first ← get_first_node document;
  get_id_to_names_loop tag first ∅.

Definition get_files (parser_contents : string) := get_id_to_names parser_contents "File".
Definition get_modules (parser_contents : string) := get_id_to_names parser_contents "Module".
Definition get_threads (parser_contents : string) := get_id_to_names parser_contents "Thread".

Definition get_enums (parser_contents : string) : outcome (gmap string (list (Z * string))) :=
  document ← load_external_xml (string_to_char_buffer parser_contents);
  first ← get_first_node document;
  get_enums_loop first ∅.

End Loader.

(** ** Parameter decoder *)

Module ParameterDecoder.

(** Modelled from the spec: the body of
    [fw_string_formatter::generate_message] (fw-string-formatter.cpp) and
    the [param_info] type (fw-log-data.h) are not among the sources; only
    the declaration in fw-string-formatter.h is.  The decoder below
    follows section 4.4 of the specification: a byte cursor starting at 0;
    for each parameter in order, [width] bytes are read at the cursor,
    interpreted per kind and appended to the output, and the cursor
    advances by [width]; the decode fails with [TruncatedBlob] when a read
    would pass the end of the blob and with [TrailingBytes] when bytes
    remain after the last parameter. *)
Inductive param_kind : Type :=
  | signed_integer
  | unsigned_integer
  | floating_point
  | enum_reference (enum_name : string).

(** Modelled from the spec: [param_info] (fw-log-data.h is missing), the
    per-parameter decode descriptor of section 3: byte width and
    interpretation kind. *)
Record param_info : Type := ParamInfo { width : nat; kind : param_kind }.

Inductive param_value : Type :=
  | integer_value (v : Z)
  | float_bits (bits : Z)
  | enum_key (enum_name : string) (key : Z).

Inductive decode_error : Type :=
  | TruncatedBlob (expected_total actual_len : nat)
  | TrailingBytes.

Definition little_endian (bytes : list Byte.byte) : Z :=
  fold_right (fun b acc => Z.of_N (Byte.to_N b) + 256 * acc) 0 bytes.

Definition to_signed (bits : nat) (v : Z) : Z :=
  if (bits =? 0)%nat then v
  else if v <? 2 ^ (Z.of_nat bits - 1) then v else v - 2 ^ Z.of_nat bits.

Definition interpret (k : param_kind) (bytes : list Byte.byte) : param_value :=
  match k with
  | signed_integer => integer_value (to_signed (8 * length bytes) (little_endian bytes))
  | unsigned_integer => integer_value (little_endian bytes)
  | floating_point => float_bits (little_endian bytes)
  | enum_reference enum_name => enum_key enum_name (little_endian bytes)
  end.

Definition total_width (params : list param_info) : nat :=
  fold_right (fun p acc => (width p + acc)%nat) 0%nat params.

(** Modelled from the spec: the cursor loop of the parameter decode of
    [generate_message] (fw-string-formatter.cpp is missing), section 4.4. *)
Fixpoint decode_from (blob : list Byte.byte) (cursor expected_total : nat)
    (params : list param_info) (values : list param_value)
  : decode_error + list param_value :=
  match params with
  | [] => if (cursor <? length blob)%nat then inl TrailingBytes else inr values
  | p :: rest =>
      if (length blob <? cursor + width p)%nat
      then inl (TruncatedBlob expected_total (length blob))
      else decode_from blob (cursor + width p) expected_total rest
             (values ++ [interpret (kind p) (take (width p) (drop cursor blob))])
  end.

(** Modelled from the spec: the parameter decode of [generate_message]
    (fw-string-formatter.cpp is missing), section 4.4: the cursor starts at
    0 and [expected_total] is the sum of the widths. *)
Definition decode_params (blob : list Byte.byte) (params : list param_info)
  : decode_error + list param_value :=
  decode_from blob 0 (total_width params) params [].

(** The values a successful decode yields: one per parameter, read at
    consecutive offsets. *)
Fixpoint values_at (blob : list Byte.byte) (cursor : nat) (params : list param_info)
  : list param_value :=
  match params with
  | [] => []
  | p :: rest =>
      interpret (kind p) (take (width p) (drop cursor blob))
        :: values_at blob (cursor + width p) rest
  end.

End ParameterDecoder.

(** ** Specification-side vocabulary *)

(** The loop shape that [get_events], [get_id_to_names] and
    [get_source_module_verbosity] share: every sibling with the given tag
    contributes [{ get_id_attribute( node ), value_of( node ) }]. *)
Fixpoint scan_insert {V} (tag : string) (value_of : xml_node -> outcome V)
    (nodes : list xml_node) (m : gmap Z V) : outcome (gmap Z V) :=
  match nodes with
  | [] => Ok m
  | node :: siblings =>
      if String.eqb (name node) tag then
        id ← get_id_attribute node;
        v ← value_of node;
        scan_insert tag value_of siblings (unordered_map_insert id v m)
      else scan_insert tag value_of siblings m
  end.

(** The value carried by the first node, in document order, that has the
    given tag and id. *)
Fixpoint first_entry {V} (tag : string) (value_of : xml_node -> outcome V) (k : Z)
    (nodes : list xml_node) : option V :=
  match nodes with
  | [] => None
  | node :: siblings =>
      if String.eqb (name node) tag then
        match get_id_attribute node, value_of node with
        | Ok id, Ok v => if Z.eqb id k then Some v else first_entry tag value_of k siblings
        | _, _ => first_entry tag value_of k siblings
        end
      else first_entry tag value_of k siblings
  end.

(** The ids of the nodes with a given tag, in document order. *)
Definition tagged_ids (tag : string) (nodes : list xml_node) : list Z :=
  omap (fun node =>
          if String.eqb (name node) tag then
            match get_id_attribute node with Ok id => Some id | _ => None end
          else None) nodes.

Arguments tagged_ids : simpl never.

(** A node that [scan_insert] processes without an exception. *)
Definition entry_ok {V} (tag : string) (value_of : xml_node -> outcome V) (node : xml_node) : Prop :=
  name node = tag -> is_ok (get_id_attribute node) = true /\ is_ok (value_of node) = true.

(** Well-formed definitions documents (section 6 of the specification): the
    root is [Format]; every [Source] has an integer [id], unique in the
    document; every [Module] below a [Source] has integer [id] and
    [verbosity], the id unique within its source. *)
Definition well_formed_source (source : xml_node) : Prop :=
  Forall (entry_ok "Module" get_verbosity_attribute) (children source)
  /\ NoDup (tagged_ids "Module" (children source)).

Definition well_formed_definitions (document : xml_document) : Prop :=
  exists root rest,
    document = root :: rest
    /\ name root = "Format"
    /\ Forall (fun source =>
                 name source = "Source" ->
                 is_ok (get_id_attribute source) = true /\ well_formed_source source)
              (children root)
    /\ NoDup (tagged_ids "Source" (children root)).

(** A [Source] node that the search for [source_id] steps over: it has an
    integer id, different from the requested one. *)
Definition other_source (source_id : Z) (node : xml_node) : Prop :=
  name node = "Source" -> exists id, get_id_attribute node = Ok id /\ id <> source_id.


(** [path] is the [Path] of the first [File] child of [source] that
    carries a [Path] attribute. *)
Definition first_path (source : xml_node) (path : string) : Prop :=
  exists before file after,
    children source = before ++ file :: after
    /\ name file = "File"
    /\ find_attribute "Path" (attributes file) = Some path
    /\ forall f, f ∈ before -> name f = "File" -> find_attribute "Path" (attributes f) = None.

Definition no_path (source : xml_node) : Prop :=
  forall f, f ∈ children source -> name f = "File" ->
            find_attribute "Path" (attributes f) = None.

(** *** Reading an integer attribute and a text attribute in one pass

    [get_event_data] and [get_enum_values] run the same attribute loop, over
    [numberOfArguments]/[format] and [Key]/[Value]: the integer is that of
    the last attribute with the integer name, the text is the concatenation
    of the values of the attributes with the text name. *)

Fixpoint read_pair (integer_key text_key : string) (attrs : list xml_attribute)
    (n : Z) (text : string) : outcome (Z * string) :=
  match attrs with
  | [] => Ok (n, text)
  | attribute :: rest =>
      if String.eqb (attr_name attribute) integer_key then
        n' ← stoi (attr_value attribute);
        read_pair integer_key text_key rest n' text
      else if String.eqb (attr_name attribute) text_key then
        read_pair integer_key text_key rest n (text +:+ attr_value attribute)
      else read_pair integer_key text_key rest n text
  end.

(** The values of all attributes with a given name, in document order. *)
Fixpoint attribute_values (key : string) (attrs : list xml_attribute) : list string :=
  match attrs with
  | [] => []
  | attribute :: rest =>
      if String.eqb (attr_name attribute) key
      then attr_value attribute :: attribute_values key rest
      else attribute_values key rest
  end.

Definition last_integer (n : Z) (values : list string) : Z :=
  fold_left (fun acc s => match stoi s with Ok z => z | _ => acc end) values n.

Definition concat_values (values : list string) : string :=
  fold_right String.append "" values.

Definition integers (key : string) (node : xml_node) : Prop :=
  Forall (fun s => is_ok (stoi s) = true) (attribute_values key (attributes node)).

Definition absent (key : string) (node : xml_node) : Prop :=
  attribute_values key (attributes node) = [].

(** The attribute (the last one, should the name be repeated) parses to a
    negative integer. *)
Definition negative_integer (key : string) (node : xml_node) : Prop :=
  exists s n, last (attribute_values key (attributes node)) = Some s
              /\ stoi s = Ok n /\ n < 0.

(** The attribute is present and its text is empty. *)
Definition empty_text (key : string) (node : xml_node) : Prop :=
  attribute_values key (attributes node) <> []
  /\ Forall (fun v => v = "") (attribute_values key (attributes node)).

(** What a node yields: the integer read (-1 when absent) and the text
    (empty when absent). *)
Definition attribute_pair (integer_key text_key : string) (node : xml_node) : Z * string :=
  (last_integer (-1) (attribute_values integer_key (attributes node)),
   concat_values (attribute_values text_key (attributes node))).

Definition usable_pair (p : Z * string) : bool :=
  negb ((fst p <? 0) || string_empty (snd p)).

(** A call that returns or raises the given exception. *)
Definition raises_only {A} (e : exn) (r : outcome A) : Prop :=
  match r with
  | Ok _ => True
  | Throw e' => e' = e
  | Undefined => False
  end.

(** A call that does not raise the "Empty XML content" exception. *)
Definition not_rejected_as_empty {A} (r : outcome A) : Prop := r <> Throw empty_xml_content.

(** *** Enum groups *)

(** The children of all [Enums] nodes, in document order. *)
Definition enum_groups (nodes : list xml_node) : list xml_node :=
  flat_map children (List.filter (fun node => String.eqb (name node) "Enums") nodes).

Definition enum_values_of (group : xml_node) : list xml_node :=
  List.filter (fun node => String.eqb (name node) "EnumValue") (children group).

(** An enum group whose only attribute is its [Name]. *)
Definition plain_group (group : xml_node) : Prop :=
  exists nm, attributes group = [Attr "Name" nm].

Definition enum_keys_are_integers (nodes : list xml_node) : Prop :=
  forall group ev, group ∈ enum_groups nodes -> ev ∈ enum_values_of group -> integers "Key" ev.

Definition group_name (group : xml_node) : string :=
  default "" (find_attribute "Name" (attributes group)).

(** The pairs of the first group, in document order, with the given
    name. *)
Fixpoint first_group (nm : string) (groups : list xml_node) : option (list (Z * string)) :=
  match groups with
  | [] => None
  | group :: rest =>
      if String.eqb (group_name group) nm
      then Some (map (attribute_pair "Key" "Value") (enum_values_of group))
      else first_group nm rest
  end.

(** The [get_enums] loops over enum groups with a single [Name]
    attribute. *)
Fixpoint scan_groups (groups : list xml_node) (m : gmap string (list (Z * string)))
  : outcome (gmap string (list (Z * string))) :=
  match groups with
  | [] => Ok m
  | group :: rest =>
      values ← get_enum_values group;
      scan_groups rest
        (unordered_map_insert (group_name group) values m)
  end.

(** ** Claims that are refuted, as stated *)

(** C4 as the specification words it: of two nodes with the same tag and
    id, the later one in document order decides the entry. *)
Definition later_duplicate_overrides : Prop :=
  forall (xml_parse : list ascii -> option xml_document) xml document nodes
         tag pre n1 mid n2 post k,
    xml_parse (string_to_char_buffer xml) = Some document ->
    get_first_node document = Ok nodes ->
    nodes = pre ++ n1 :: mid ++ n2 :: post ->
    name n1 = tag -> name n2 = tag ->
    get_id_attribute n1 = Ok k -> get_id_attribute n2 = Ok k ->
    (forall n, n ∈ post -> name n = tag -> get_id_attribute n <> Ok k) ->
    (tag = "Event" -> forall m, get_events xml_parse xml = Ok m ->
       exists data, get_event_data n2 = Ok data /\ m !! k = Some data)
    /\ (tag = "File" \/ tag = "Module" \/ tag = "Thread" ->
        forall m, get_id_to_names xml_parse xml tag = Ok m ->
        exists nm, get_name_attribute n2 = Ok nm /\ m !! k = Some nm).

(** C7 as the specification words it: the call fails with the missing-file
    error exactly when the matching source has no [File] node with a
    non-empty [Path]. *)
Definition missing_file_exactly_without_path : Prop :=
  forall (xml_parse : list ascii -> option xml_document) xml source_id document source_node,
    xml_parse (string_to_char_buffer xml) = Some document ->
    get_source_node source_id document = Ok source_node ->
    (get_source_parser_file_path xml_parse source_id xml = Throw (missing_file source_id)
     <-> forall file, file ∈ children source_node -> name file = "File" ->
           forall path, find_attribute "Path" (attributes file) = Some path -> path = "").

(** C2 as the specification words it: every child of the single [Enums]
    node appears exactly once in the returned map, under its [Name], with
    the pairs of its own [EnumValue] children. *)
Definition every_enum_child_once : Prop :=
  forall (xml_parse : list ascii -> option xml_document) xml document nodes
         before enums after m,
    xml_parse (string_to_char_buffer xml) = Some document ->
    get_first_node document = Ok nodes ->
    nodes = before ++ enums :: after ->
    name enums = "Enums" ->
    (forall n, n ∈ before ++ after -> name n <> "Enums") ->
    get_enums xml_parse xml = Ok m ->
    (forall child, child ∈ children enums ->
       exists nm, find_attribute "Name" (attributes child) = Some nm
                  /\ m !! nm = Some (map (attribute_pair "Key" "Value") (enum_values_of child)))
    /\ size m = length (children enums).

(** ** Sample documents *)

(** A stand-in for rapidxml that knows a few texts and the trees they parse
    to, and rejects every other buffer. *)
Fixpoint parser_of (known : list (string * xml_document)) (buffer : list ascii)
  : option xml_document :=
  match known with
  | [] => None
  | (text, document) :: rest =>
      if decide (buffer = string_to_char_buffer text) then Some document
      else parser_of rest buffer
  end.

Definition element (tag : string) (attrs : list (string * string)) (kids : list xml_node)
  : xml_node :=
  Node tag (map (fun a => Attr (fst a) (snd a)) attrs) kids.

Module Samples.

Definition first_event : xml_node :=
  element "Event" [("id", "1"); ("numberOfArguments", "1"); ("format", "first {0}")] [].
Definition a_file : xml_node :=
  element "File" [("id", "1"); ("Name", "main.c")] [].
Definition second_event : xml_node :=
  element "Event" [("id", "1"); ("numberOfArguments", "2"); ("format", "second {0} {1}")] [].

Definition duplicates_text : string :=
  "<Format><Event id='1' numberOfArguments='1' format='first {0}'/><File id='1' Name='main.c'/><Event id='1' numberOfArguments='2' format='second {0} {1}'/></Format>".
Definition duplicates : xml_document :=
  [element "Format" [] [first_event; a_file; second_event]].

Definition no_duplicates_text : string :=
  "<Format><Event id='1' numberOfArguments='1' format='first {0}'/><File id='1' Name='main.c'/></Format>".
Definition no_duplicates : xml_document :=
  [element "Format" [] [first_event; a_file]].

Definition definitions_text : string :=
  "<Format><Source id='0' Name='hw'><File Path='hw.xml'/><Module id='0' verbosity='1'/><Module id='1' verbosity='2'/></Source><Source id='1' Name='fw'><File Path='fw.xml'/><Module id='7' verbosity='0'/></Source></Format>".
Definition hw_source : xml_node :=
  element "Source" [("id", "0"); ("Name", "hw")]
    [element "File" [("Path", "hw.xml")] [];
     element "Module" [("id", "0"); ("verbosity", "1")] [];
     element "Module" [("id", "1"); ("verbosity", "2")] []].
Definition fw_source : xml_node :=
  element "Source" [("id", "1"); ("Name", "fw")]
    [element "File" [("Path", "fw.xml")] [];
     element "Module" [("id", "7"); ("verbosity", "0")] []].
Definition definitions : xml_document :=
  [element "Format" [] [hw_source; fw_source]].

Definition no_verbosity_text : string :=
  "<Format><Source id='0'><Module id='0' verbosity='1'/><Module id='1'/></Source></Format>".
Definition no_verbosity_source : xml_node :=
  element "Source" [("id", "0")]
    [element "Module" [("id", "0"); ("verbosity", "1")] [];
     element "Module" [("id", "1")] []].
Definition no_verbosity : xml_document :=
  [element "Format" [] [no_verbosity_source]].

Definition anonymous_source_text : string :=
  "<Format><Source Name='hw'><File Path='hw.xml'/></Source><Source id='1' Name='fw'><File Path='fw.xml'/><Module id='7' verbosity='0'/></Source></Format>".
Definition anonymous_source : xml_node :=
  element "Source" [("Name", "hw")] [element "File" [("Path", "hw.xml")] []].
Definition anonymous_source_document : xml_document :=
  [element "Format" [] [anonymous_source; fw_source]].

Definition two_files_text : string :=
  "<Format><Source id='1'><File Path=''/><File Path='parser.xml'/></Source></Format>".
Definition two_files_source : xml_node :=
  element "Source" [("id", "1")]
    [element "File" [("Path", "")] []; element "File" [("Path", "parser.xml")] []].
Definition two_files : xml_document :=
  [element "Format" [] [two_files_source]].

Definition power_enum : xml_node :=
  element "Enum" [("Name", "Power")]
    [element "EnumValue" [("Key", "1"); ("Value", "ON")] [];
     element "EnumValue" [("Key", "0"); ("Value", "OFF")] []].
Definition mode_enum : xml_node :=
  element "Enum" [("Name", "Mode")] [element "EnumValue" [("Key", "3"); ("Value", "AUTO")] []].
Definition enums_text : string :=
  "<Format><Enums><Enum Name='Power'><EnumValue Key='1' Value='ON'/><EnumValue Key='0' Value='OFF'/></Enum><Enum Name='Mode'><EnumValue Key='3' Value='AUTO'/></Enum></Enums></Format>".
Definition enums_document : xml_document :=
  [element "Format" [] [element "Enums" [] [power_enum; mode_enum]]].

Definition other_power_enum : xml_node :=
  element "Enum" [("Name", "Power")] [element "EnumValue" [("Key", "2"); ("Value", "STANDBY")] []].
Definition duplicate_enums_text : string :=
  "<Format><Enums><Enum Name='Power'><EnumValue Key='1' Value='ON'/><EnumValue Key='0' Value='OFF'/></Enum><Enum Name='Power'><EnumValue Key='2' Value='STANDBY'/></Enum></Enums></Format>".
Definition duplicate_enums : xml_document :=
  [element "Format" [] [element "Enums" [] [power_enum; other_power_enum]]].

Definition negative_key_value : xml_node :=
  element "EnumValue" [("Key", "-1"); ("Value", "UNKNOWN")] [].
Definition negative_key_enum : xml_node :=
  element "Enum" [("Name", "Mode")] [negative_key_value].
Definition negative_key_text : string :=
  "<Format><Enums><Enum Name='Mode'><EnumValue Key='-1' Value='UNKNOWN'/></Enum></Enums></Format>".
Definition negative_key : xml_document :=
  [element "Format" [] [element "Enums" [] [negative_key_enum]]].

Definition no_value_value : xml_node := element "EnumValue" [("Key", "4")] [].
Definition no_value_enum : xml_node := element "Enum" [("Name", "Mode")] [no_value_value].
Definition no_value_text : string :=
  "<Format><Enums><Enum Name='Mode'><EnumValue Key='4'/></Enum></Enums></Format>".
Definition no_value : xml_document :=
  [element "Format" [] [element "Enums" [] [no_value_enum]]].

Definition empty_format_event : xml_node :=
  element "Event" [("id", "2"); ("numberOfArguments", "0"); ("format", "")] [].
Definition empty_format_text : string :=
  "<Format><Event id='1' numberOfArguments='1' format='first {0}'/><Event id='2' numberOfArguments='0' format=''/></Format>".
Definition empty_format : xml_document :=
  [element "Format" [] [first_event; empty_format_event]].

Definition parser : list ascii -> option xml_document :=
  parser_of [(duplicates_text, duplicates); (no_duplicates_text, no_duplicates);
             (definitions_text, definitions); (no_verbosity_text, no_verbosity);
             (anonymous_source_text, anonymous_source_document);
             (two_files_text, two_files); (enums_text, enums_document);
             (duplicate_enums_text, duplicate_enums); (negative_key_text, negative_key);
             (no_value_text, no_value); (empty_format_text, empty_format)].

End Samples.

(** ** Vocabulary of the further properties *)

(** The key under which [get_enums] stores the values of a group while it
    visits one attribute: [enum_name] of the innermost loop. *)
Definition enum_name_of (attribute : xml_attribute) : string :=
  if String.eqb (attr_name attribute) "Name" then attr_value attribute else "".

(** A pair that the checks of [get_event_data] and [get_enum_values] let
    through: the integer is a non-negative [int], the text is not empty. *)
Definition valid_pair (p : Z * string) : Prop :=
  0 <= fst p <= INT_MAX /\ snd p <> "".

Definition has_tag (tag : string) (node : xml_node) : bool := String.eqb (name node) tag.

(** The exception of [get_first_node]. *)
Definition root_not_format : exn := invalid_value_exception "XML root should be 'Format'".

Definition has_attributes (node : xml_node) : bool :=
  match attributes node with [] => false | _ :: _ => true end.

(** What [get_enum_values] stores for an [EnumValue] node: the conversion
    of its last [Key], the concatenation of its [Value]s, and the pair has
    passed the check. *)
Definition enum_value_read (ev : xml_node) (p : Z * string) : Prop :=
  (exists s, last (attribute_values "Key" (attributes ev)) = Some s /\ stoi s = Ok (fst p))
  /\ snd p = concat_values (attribute_values "Value" (attributes ev))
  /\ valid_pair p.

Module MoreSamples.

Definition wrong_root_text : string :=
  "<Formats><Event id='1' numberOfArguments='1' format='first {0}'/></Formats>".
Definition wrong_root : xml_document :=
  [element "Formats" [] [Samples.first_event]].

Definition thread_without_name : xml_node := element "Thread" [("id", "3")] [].
Definition event_without_id : xml_node :=
  element "Event" [("numberOfArguments", "1"); ("format", "x {0}")] [].
Definition mixed_text : string :=
  "<Format><File id='1' Name='main.c'/><Event numberOfArguments='1' format='x {0}'/><Thread id='3'/><File id='2' Name='util.c'/></Format>".
Definition mixed_nodes : list xml_node :=
  [Samples.a_file; event_without_id; thread_without_name;
   element "File" [("id", "2"); ("Name", "util.c")] []].
Definition mixed : xml_document := [element "Format" [] mixed_nodes].

Definition files_only_text : string :=
  "<Format><File id='1' Name='main.c'/><File id='2' Name='util.c'/></Format>".
Definition files_only_nodes : list xml_node :=
  [Samples.a_file; element "File" [("id", "2"); ("Name", "util.c")] []].
Definition files_only : xml_document := [element "Format" [] files_only_nodes].

Definition bad_id_file : xml_node := element "File" [("id", "one"); ("Name", "main.c")] [].
Definition bad_id_text : string :=
  "<Format><File id='one' Name='main.c'/></Format>".
Definition bad_id : xml_document := [element "Format" [] [bad_id_file]].

Definition repeated_event : xml_node :=
  element "Event"
    [("id", "4"); ("numberOfArguments", "7"); ("format", "a {0}");
     ("numberOfArguments", "1"); ("format", " b")] [].

Definition twice_source_text : string :=
  "<Format><Source id='1'><File Path='one.xml'/><Module id='2' verbosity='3'/><Module id='2' verbosity='9'/></Source><Source id='1'><Module id='5'/></Source></Format>".
Definition first_of_two : xml_node :=
  element "Source" [("id", "1")]
    [element "File" [("Path", "one.xml")] [];
     element "Module" [("id", "2"); ("verbosity", "3")] [];
     element "Module" [("id", "2"); ("verbosity", "9")] []].
Definition second_of_two : xml_node :=
  element "Source" [("id", "1")] [element "Module" [("id", "5")] []].
Definition twice_source : xml_document :=
  [element "Format" [] [first_of_two; second_of_two]].

Definition once_source_text : string :=
  "<Format><Source id='1'><File Path='one.xml'/><Module id='2' verbosity='3'/><Module id='2' verbosity='9'/></Source></Format>".
Definition once_source : xml_document := [element "Format" [] [first_of_two]].

Definition modules_only_text : string :=
  "<Format><Source id='1'><Module id='2' verbosity='3'/><Module id='2' verbosity='9'/></Source></Format>".
Definition modules_only_source : xml_node :=
  element "Source" [("id", "1")]
    [element "Module" [("id", "2"); ("verbosity", "3")] [];
     element "Module" [("id", "2"); ("verbosity", "9")] []].
Definition modules_only : xml_document := [element "Format" [] [modules_only_source]].

Definition bare_group : xml_node :=
  element "Enum" [] [element "EnumValue" [("Key", "-5")] []].
Definition described_group : xml_node :=
  element "Enum" [("Id", "7"); ("Name", "Mode")]
    [element "EnumValue" [("Key", "3"); ("Value", "AUTO")] []].
Definition split_enums_text : string :=
  "<Format><Enums><Enum><EnumValue Key='-5'/></Enum><Enum Id='7' Name='Mode'><EnumValue Key='3' Value='AUTO'/></Enum></Enums><File id='1' Name='main.c'/><Enums><Enum Name='Power'><EnumValue Key='1' Value='ON'/><EnumValue Key='0' Value='OFF'/></Enum></Enums></Format>".
Definition split_enums_nodes : list xml_node :=
  [element "Enums" [] [bare_group; described_group]; Samples.a_file;
   element "Enums" [] [Samples.power_enum]].
Definition split_enums : xml_document := [element "Format" [] split_enums_nodes].

Definition joined_enums_text : string :=
  "<Format><Enums><Enum Id='7' Name='Mode'><EnumValue Key='3' Value='AUTO'/></Enum><Enum Name='Power'><EnumValue Key='1' Value='ON'/><EnumValue Key='0' Value='OFF'/></Enum></Enums></Format>".
Definition joined_enums_nodes : list xml_node :=
  [element "Enums" [] [described_group; Samples.power_enum]].
Definition joined_enums : xml_document := [element "Format" [] joined_enums_nodes].

Definition parser : list ascii -> option xml_document :=
  parser_of [(wrong_root_text, wrong_root); (mixed_text, mixed);
             (files_only_text, files_only); (bad_id_text, bad_id);
             (twice_source_text, twice_source); (once_source_text, once_source);
             (modules_only_text, modules_only);
             (split_enums_text, split_enums); (joined_enums_text, joined_enums);
             (Samples.duplicates_text, Samples.duplicates);
             (Samples.definitions_text, Samples.definitions);
             (Samples.enums_text, Samples.enums_document)].

End MoreSamples.


Module BareGroupSample.

Definition negative_key_value : xml_node :=
  element "EnumValue" [("Key", "-1"); ("Value", "UNKNOWN")] [].
Definition bare_group : xml_node := element "Enum" [] [negative_key_value].
Definition text : string :=
  "<Format><Enums><Enum><EnumValue Key='-1' Value='UNKNOWN'/></Enum></Enums></Format>".
Definition nodes : list xml_node := [element "Enums" [] [bare_group]].
Definition document : xml_document := [element "Format" [] nodes].
Definition parser : list ascii -> option xml_document := parser_of [(text, document)].

End BareGroupSample.

(** * Properties *)

(** ** The embedding on concrete inputs *)

Example stoi_plain : stoi "42" = Ok 42.
Proof. reflexivity. Qed.

Example stoi_spaces_sign_tail : stoi "  -17abc" = Ok (-17).
Proof. reflexivity. Qed.

Example stoi_no_digits : stoi "abc" = Throw invalid_argument.
Proof. reflexivity. Qed.

Example stoi_too_large : stoi "2147483648" = Throw out_of_range.
Proof. reflexivity. Qed.

Example stoi_int_min : stoi "-2147483648" = Ok INT_MIN.
Proof. reflexivity. Qed.

Example buffer_of_text : string_to_char_buffer "<a/>" = ["<"; "a"; "/"; ">"; zero; zero]%char.
Proof. reflexivity. Qed.

Example sample_events :
  get_events Samples.parser Samples.duplicates_text = Ok {[ 1 := (1, "first {0}") ]}.
Proof. by vm_compute. Qed.

Example sample_files :
  get_files Samples.parser Samples.duplicates_text = Ok {[ 1 := "main.c" ]}.
Proof. by vm_compute. Qed.

Example sample_file_path :
  get_source_parser_file_path Samples.parser 0 Samples.definitions_text = Ok "hw.xml".
Proof. by vm_compute. Qed.

Example sample_unknown_text :
  get_events Samples.parser "<Format/>" = Throw parse_error.
Proof. by vm_compute. Qed.

Example sample_decode :
  ParameterDecoder.decode_params [Byte.x2a; Byte.x00; Byte.x00]
    [ParameterDecoder.ParamInfo 2 ParameterDecoder.unsigned_integer;
     ParameterDecoder.ParamInfo 1 (ParameterDecoder.enum_reference "PowerEnum")]
  = inr [ParameterDecoder.integer_value 42; ParameterDecoder.enum_key "PowerEnum" 0].
Proof. reflexivity. Qed.

Example sample_decode_truncated :
  ParameterDecoder.decode_params [Byte.x2a; Byte.x00]
    [ParameterDecoder.ParamInfo 2 ParameterDecoder.unsigned_integer;
     ParameterDecoder.ParamInfo 1 (ParameterDecoder.enum_reference "PowerEnum")]
  = inl (ParameterDecoder.TruncatedBlob 3 2).
Proof. reflexivity. Qed.

(** ** Outcomes and [unordered_map_insert] *)

Ltac case_tag :=
  match goal with
  | |- context [String.eqb ?a ?b] => destruct (String.eqb_spec a b)
  | H : context [String.eqb ?a ?b] |- _ => destruct (String.eqb_spec a b)
  end.

Ltac each_node tac :=
  lazymatch goal with
  | |- Forall _ [] => apply List.Forall_nil
  | |- Forall _ (_ :: _) => apply List.Forall_cons; [tac | each_node tac]
  end.

Lemma is_ok_true {A} (r : outcome A) : is_ok r = true <-> exists a, r = Ok a.
Proof.
  destruct r; simpl; split; intros H; try discriminate; eauto.
  - destruct H; discriminate.
  - destruct H; discriminate.
Qed.

Lemma bind_ok {A B} (r : outcome A) (f : A -> outcome B) (b : B) :
  r ≫= f = Ok b <-> exists a, r = Ok a /\ f a = Ok b.
Proof.
  destruct r; simpl; split; intros H; try discriminate; eauto.
  - destruct H as (a' & [= ->] & H); exact H.
  - destruct H as (a' & [=] & _).
  - destruct H as (a' & [=] & _).
Qed.

Section UnorderedMap.
Context {K : Type} `{Countable K} {V : Type}.
Implicit Types (m : gmap K V) (k : K) (v : V).

Lemma lookup_unordered_map_insert m k v k' :
  unordered_map_insert k v m !! k' =
    match m !! k' with
    | Some v' => Some v'
    | None => if decide (k = k') then Some v else None
    end.
Proof.
  unfold unordered_map_insert.
  destruct (m !! k) as [w|] eqn:Hk.
  - destruct (m !! k') eqn:Hk'; [done|].
    case_decide; [congruence | done].
  - rewrite lookup_insert. case_decide; subst.
    + by rewrite Hk.
    + by destruct (m !! k').
Qed.

Lemma unordered_map_insert_present m k v :
  is_Some (m !! k) -> unordered_map_insert k v m = m.
Proof. intros [w Hw]. unfold unordered_map_insert. by rewrite Hw. Qed.

Lemma size_unordered_map_insert_fresh m k v :
  m !! k = None -> size (unordered_map_insert k v m) = S (size m).
Proof.
  intros Hk. unfold unordered_map_insert. rewrite Hk.
  by apply map_size_insert_None.
Qed.
End UnorderedMap.

(** ** The shared scan *)

Section Scan.
Context {V : Type}.
Variable tag : string.
Variable value_of : xml_node -> outcome V.
Implicit Types (nodes pre post : list xml_node) (m : gmap Z V) (k : Z).

Lemma scan_insert_app pre post m :
  scan_insert tag value_of (pre ++ post) m =
    scan_insert tag value_of pre m ≫= scan_insert tag value_of post.
Proof.
  revert m; induction pre as [|node pre IH]; intros m; simpl; [done|].
  case_tag; [|apply IH].
  destruct (get_id_attribute node) as [id| |]; simpl; try done.
  destruct (value_of node) as [v| |]; simpl; try done.
Qed.

Lemma scan_insert_lookup nodes m m' k :
  scan_insert tag value_of nodes m = Ok m' ->
  m' !! k = match m !! k with
            | Some v => Some v
            | None => first_entry tag value_of k nodes
            end.
Proof.
  revert m; induction nodes as [|node nodes IH]; intros m; simpl.
  - intros [= ->]. by destruct (m' !! k).
  - case_tag; [|apply IH].
    destruct (get_id_attribute node) as [id| |]; simpl; try done.
    destruct (value_of node) as [v| |]; simpl; try done.
    intros Hscan. rewrite (IH _ Hscan), lookup_unordered_map_insert.
    destruct (m !! k); [done|].
    case_decide as Hid; subst.
    + by rewrite Z.eqb_refl.
    + by apply Z.eqb_neq in Hid as ->.
Qed.

Lemma scan_insert_ok nodes m :
  Forall (entry_ok tag value_of) nodes ->
  exists m', scan_insert tag value_of nodes m = Ok m'.
Proof.
  intros Hall; revert m; induction Hall as [|node nodes Hnode _ IH]; intros m; simpl.
  - eauto.
  - case_tag; [|apply IH].
    destruct (Hnode e) as [[id ->]%is_ok_true [v ->]%is_ok_true]. simpl. apply IH.
Qed.

(** The scan stops at the first node whose id or value raises. *)
Lemma scan_insert_raises pre node post m m1 e :
  scan_insert tag value_of pre m = Ok m1 ->
  name node = tag ->
  (get_id_attribute node ≫= fun id => value_of node ≫= fun v => Ok (id, v)) = Throw e ->
  scan_insert tag value_of (pre ++ node :: post) m = Throw e.
Proof.
  intros Hpre Htag He.
  rewrite scan_insert_app, Hpre. simpl.
  apply String.eqb_eq in Htag as ->.
  destruct (get_id_attribute node) as [id| |]; simpl in *; try congruence.
  destruct (value_of node) as [v| |]; simpl in *; congruence.
Qed.

Lemma first_entry_app pre post k :
  first_entry tag value_of k (pre ++ post) =
    match first_entry tag value_of k pre with
    | Some v => Some v
    | None => first_entry tag value_of k post
    end.
Proof.
  induction pre as [|node pre IH]; simpl; [done|].
  case_tag; [|done].
  destruct (get_id_attribute node) as [id| |]; try done.
  destruct (value_of node) as [v| |]; try done.
  by destruct (id =? k).
Qed.

Lemma first_entry_none pre k :
  (forall n, n ∈ pre -> name n = tag -> get_id_attribute n <> Ok k) ->
  first_entry tag value_of k pre = None.
Proof.
  induction pre as [|node pre IH]; simpl; [done|]. intros Hpre.
  assert (IH' : first_entry tag value_of k pre = None).
  { apply IH. intros n Hn. apply Hpre. by right. }
  case_tag; [|done].
  destruct (get_id_attribute node) as [id| |] eqn:Hid; try done.
  destruct (value_of node) as [v| |]; try done.
  destruct (Z.eqb_spec id k) as [->|]; [|done].
  exfalso. eapply Hpre; [by left|done..].
Qed.

Lemma first_entry_here node post k v :
  name node = tag -> get_id_attribute node = Ok k -> value_of node = Ok v ->
  first_entry tag value_of k (node :: post) = Some v.
Proof.
  intros Htag Hid Hv. simpl.
  apply String.eqb_eq in Htag as ->. by rewrite Hid, Hv, Z.eqb_refl.
Qed.

Lemma first_entry_first pre node post k v :
  (forall n, n ∈ pre -> name n = tag -> get_id_attribute n <> Ok k) ->
  name node = tag -> get_id_attribute node = Ok k -> value_of node = Ok v ->
  first_entry tag value_of k (pre ++ node :: post) = Some v.
Proof.
  intros Hpre Htag Hid Hv.
  rewrite first_entry_app, (first_entry_none _ _ Hpre).
  by apply first_entry_here.
Qed.

Lemma first_entry_some nodes k v :
  first_entry tag value_of k nodes = Some v ->
  exists node, node ∈ nodes /\ name node = tag
               /\ get_id_attribute node = Ok k /\ value_of node = Ok v.
Proof.
  induction nodes as [|node nodes IH]; simpl; [done|].
  assert (IH' : first_entry tag value_of k nodes = Some v ->
                exists n, n ∈ node :: nodes /\ name n = tag
                          /\ get_id_attribute n = Ok k /\ value_of n = Ok v).
  { intros (n & Hn & ?)%IH. exists n. split; [by right|done]. }
  case_tag; [|done].
  destruct (get_id_attribute node) as [id| |] eqn:Hid; try done.
  destruct (value_of node) as [w| |] eqn:Hw; try done.
  destruct (Z.eqb_spec id k) as [->|]; [|done].
  intros [= ->]. exists node. split; [by left|done].
Qed.

(** A node of the scanned list that raised would have stopped the scan. *)
Lemma scan_insert_ok_inv nodes m m' :
  scan_insert tag value_of nodes m = Ok m' ->
  Forall (entry_ok tag value_of) nodes.
Proof.
  revert m; induction nodes as [|node nodes IH]; intros m; simpl; [constructor|].
  case_tag.
  - destruct (get_id_attribute node) as [id| |] eqn:Hid; simpl; try done.
    destruct (value_of node) as [v| |] eqn:Hv; simpl; try done.
    intros Hscan. constructor; [|by eapply IH].
    intros _. by rewrite Hid, Hv.
  - intros Hscan. constructor; [|by eapply IH].
    intros ?; congruence.
Qed.
End Scan.

(** ** The three table builders are instances of the scan *)

Lemma get_events_loop_scan nodes m :
  get_events_loop nodes m = scan_insert "Event" get_event_data nodes m.
Proof.
  revert m; induction nodes as [|node nodes IH]; intros m; simpl; [done|].
  case_tag; [|apply IH].
  destruct (get_id_attribute node); simpl; try done.
  destruct (get_event_data node); simpl; try done.
Qed.

Lemma get_id_to_names_loop_scan tag nodes m :
  get_id_to_names_loop tag nodes m = scan_insert tag get_name_attribute nodes m.
Proof.
  revert m; induction nodes as [|node nodes IH]; intros m; simpl; [done|].
  case_tag; [|apply IH].
  destruct (get_id_attribute node); simpl; try done.
  destruct (get_name_attribute node); simpl; try done.
Qed.

Lemma get_source_module_verbosity_loop_scan nodes m :
  get_source_module_verbosity_loop nodes m = scan_insert "Module" get_verbosity_attribute nodes m.
Proof.
  revert m; induction nodes as [|node nodes IH]; intros m; simpl; [done|].
  case_tag; [|apply IH].
  destruct (get_id_attribute node); simpl; try done.
  destruct (get_verbosity_attribute node); simpl; try done.
Qed.

(** ** Loading *)

Section Loading.
Variable xml_parse : list ascii -> option xml_document.

Lemma string_to_char_buffer_length xml :
  length (string_to_char_buffer xml) = (String.length xml + 2)%nat.
Proof.
  unfold string_to_char_buffer. rewrite length_app. simpl. f_equal.
  induction xml as [|c xml IH]; simpl; [done|]. by rewrite IH.
Qed.

(** The buffer handed to [load_external_xml] always holds the two
    terminators, so the parser is always called. *)
Lemma load_external_xml_parses xml :
  load_external_xml xml_parse (string_to_char_buffer xml) =
    match xml_parse (string_to_char_buffer xml) with
    | Some document => Ok document
    | None => Throw parse_error
    end.
Proof.
  pose proof (string_to_char_buffer_length xml) as Hlen.
  destruct (string_to_char_buffer xml); simpl in *; [lia|done].
Qed.

Lemma load_external_xml_parsed xml document :
  xml_parse (string_to_char_buffer xml) = Some document ->
  load_external_xml xml_parse (string_to_char_buffer xml) = Ok document.
Proof. intros Hparse. by rewrite load_external_xml_parses, Hparse. Qed.

Lemma get_events_parsed xml document nodes :
  xml_parse (string_to_char_buffer xml) = Some document ->
  get_first_node document = Ok nodes ->
  get_events xml_parse xml = scan_insert "Event" get_event_data nodes ∅.
Proof.
  intros Hparse Hfirst. unfold get_events.
  rewrite (load_external_xml_parsed _ _ Hparse). simpl. rewrite Hfirst. simpl.
  apply get_events_loop_scan.
Qed.

Lemma get_id_to_names_parsed xml tag document nodes :
  xml_parse (string_to_char_buffer xml) = Some document ->
  get_first_node document = Ok nodes ->
  get_id_to_names xml_parse xml tag = scan_insert tag get_name_attribute nodes ∅.
Proof.
  intros Hparse Hfirst. unfold get_id_to_names.
  rewrite (load_external_xml_parsed _ _ Hparse). simpl. rewrite Hfirst. simpl.
  apply get_id_to_names_loop_scan.
Qed.

Lemma get_source_module_verbosity_parsed xml source_id document :
  xml_parse (string_to_char_buffer xml) = Some document ->
  get_source_module_verbosity xml_parse source_id xml =
    get_source_node source_id document ≫= fun source_node =>
      scan_insert "Module" get_verbosity_attribute (children source_node) ∅.
Proof.
  intros Hparse. unfold get_source_module_verbosity.
  rewrite (load_external_xml_parsed _ _ Hparse). simpl.
  destruct (get_source_node source_id document); simpl; try done.
  apply get_source_module_verbosity_loop_scan.
Qed.

Lemma get_source_parser_file_path_parsed xml source_id document :
  xml_parse (string_to_char_buffer xml) = Some document ->
  get_source_parser_file_path xml_parse source_id xml =
    get_source_node source_id document ≫= fun source_node =>
      if string_empty (get_file_path source_node) then Throw (missing_file source_id)
      else Ok (get_file_path source_node).
Proof.
  intros Hparse. unfold get_source_parser_file_path.
  by rewrite (load_external_xml_parsed _ _ Hparse).
Qed.

(** ** Duplicate ids *)

(** The first node with a given tag and id decides the entry of a
    returned table. *)
Lemma scan_insert_first_wins {V} tag (value_of : xml_node -> outcome V)
    pre n1 post k (m : gmap Z V) :
  name n1 = tag -> get_id_attribute n1 = Ok k ->
  (forall n, n ∈ pre -> name n = tag -> get_id_attribute n <> Ok k) ->
  scan_insert tag value_of (pre ++ n1 :: post) ∅ = Ok m ->
  exists v, value_of n1 = Ok v /\ m !! k = Some v.
Proof.
  intros Htag Hid Hpre Hscan.
  pose proof (scan_insert_ok_inv _ _ _ _ _ Hscan) as Hall.
  apply Forall_app in Hall as [_ Hall]. apply Forall_cons in Hall as [Hn1 _].
  destruct (Hn1 Htag) as [_ [v Hv]%is_ok_true].
  exists v. split; [done|].
  rewrite (scan_insert_lookup _ _ _ _ _ k Hscan), lookup_empty.
  by apply first_entry_first.
Qed.


End Loading.

Section Duplicates.
Variable xml_parse : list ascii -> option xml_document.

Lemma scan_insert_duplicate {V} tag (value_of : xml_node -> outcome V) before n2 post k :
  name n2 = tag -> get_id_attribute n2 = Ok k -> is_ok (value_of n2) = true ->
  (exists n1, n1 ∈ before /\ name n1 = tag /\ get_id_attribute n1 = Ok k) ->
  scan_insert tag value_of (before ++ n2 :: post) ∅ =
    scan_insert tag value_of (before ++ post) ∅.
Proof.
  intros Htag Hid [v Hv]%is_ok_true (n1 & Hn1 & Htag1 & Hid1).
  rewrite !scan_insert_app.
  destruct (scan_insert tag value_of before ∅) as [m1| |] eqn:Hbefore; simpl; try done.
  apply String.eqb_eq in Htag as Htag'. rewrite Htag', Hid, Hv. simpl.
  rewrite unordered_map_insert_present; [done|].
  rewrite (scan_insert_lookup _ _ _ _ _ k Hbefore), lookup_empty.
  apply list_elem_of_split in Hn1 as (l1 & l2 & ->).
  pose proof (scan_insert_ok_inv _ _ _ _ _ Hbefore) as Hall.
  apply Forall_app in Hall as [_ Hall]. apply Forall_cons in Hall as [Hok _].
  destruct (Hok Htag1) as [_ [v1 Hv1]%is_ok_true].
  rewrite (first_entry_app tag value_of l1 (n1 :: l2) k).
  destruct (first_entry tag value_of k l1); [done|].
  rewrite (first_entry_here _ _ _ _ _ _ Htag1 Hid1 Hv1). done.
Qed.

(** C4, amended. When two nodes with the same tag and id occur in one
    document, the earlier entry is kept and the later duplicate is dropped
    silently: every table ([get_events], [get_files], [get_modules],
    [get_threads]) is the one built from the document without the later
    node. *)
Theorem later_duplicate_dropped xml xml' document document' tag pre n1 mid n2 post k :
  xml_parse (string_to_char_buffer xml) = Some document ->
  get_first_node document = Ok (pre ++ n1 :: mid ++ n2 :: post) ->
  xml_parse (string_to_char_buffer xml') = Some document' ->
  get_first_node document' = Ok (pre ++ n1 :: mid ++ post) ->
  name n1 = tag -> name n2 = tag ->
  get_id_attribute n1 = Ok k -> get_id_attribute n2 = Ok k ->
  (tag = "Event" -> is_ok (get_event_data n2) = true ->
     get_events xml_parse xml = get_events xml_parse xml')
  /\ (is_ok (get_name_attribute n2) = true ->
     get_id_to_names xml_parse xml tag = get_id_to_names xml_parse xml' tag).
Proof.
  intros Hparse Hfirst Hparse' Hfirst' Htag1 Htag2 Hid1 Hid2.
  assert (Hearlier : exists n, n ∈ pre ++ n1 :: mid /\ name n = tag /\ get_id_attribute n = Ok k).
  { exists n1. split; [|done]. apply elem_of_app. right. by left. }
  split.
  - intros -> Hdata.
    rewrite (get_events_parsed _ _ _ _ Hparse Hfirst),
      (get_events_parsed _ _ _ _ Hparse' Hfirst').
    replace (pre ++ n1 :: mid ++ n2 :: post) with ((pre ++ n1 :: mid) ++ n2 :: post)
      by (by rewrite <- app_assoc).
    replace (pre ++ n1 :: mid ++ post) with ((pre ++ n1 :: mid) ++ post)
      by (by rewrite <- app_assoc).
    by apply (scan_insert_duplicate _ _ _ _ _ k).
  - intros Hname.
    rewrite (get_id_to_names_parsed _ _ _ _ _ Hparse Hfirst),
      (get_id_to_names_parsed _ _ _ _ _ Hparse' Hfirst').
    replace (pre ++ n1 :: mid ++ n2 :: post) with ((pre ++ n1 :: mid) ++ n2 :: post)
      by (by rewrite <- app_assoc).
    replace (pre ++ n1 :: mid ++ post) with ((pre ++ n1 :: mid) ++ post)
      by (by rewrite <- app_assoc).
    by apply (scan_insert_duplicate _ _ _ _ _ k).
Qed.

End Duplicates.


(** C4, as stated, is false: in the sample document the second [Event]
    with id 1 does not replace the first. *)
Lemma later_duplicate_overrides_refuted : ~ later_duplicate_overrides.
Proof.
  intros Hclaim.
  destruct (Hclaim Samples.parser Samples.duplicates_text Samples.duplicates
              [Samples.first_event; Samples.a_file; Samples.second_event] "Event"
              [] Samples.first_event [Samples.a_file] Samples.second_event [] 1)
    as [Hevents _]; try reflexivity.
  - intros n Hn. inversion Hn.
  - destruct (get_events Samples.parser Samples.duplicates_text) as [m| |] eqn:Hm;
      try (vm_compute in Hm; discriminate).
    destruct (Hevents eq_refl m eq_refl) as (data & Hdata & Hk).
    assert (Hfirst : m !! 1 = Some (1, "first {0}")).
    { vm_compute in Hm. injection Hm as <-. reflexivity. }
    rewrite Hk in Hfirst. vm_compute in Hdata. congruence.
Qed.

Lemma later_duplicate_dropped_witness :
  get_events Samples.parser Samples.duplicates_text
  = get_events Samples.parser Samples.no_duplicates_text.
Proof.
  destruct (later_duplicate_dropped Samples.parser
              Samples.duplicates_text Samples.no_duplicates_text
              Samples.duplicates Samples.no_duplicates "Event"
              [] Samples.first_event [Samples.a_file] Samples.second_event [] 1)
    as [Hevents _].
  - vm_compute. reflexivity.
  - reflexivity.
  - vm_compute. reflexivity.
  - reflexivity.
  - reflexivity.
  - reflexivity.
  - reflexivity.
  - reflexivity.
  - apply Hevents; reflexivity.
Defined.

(** ** Locating a source *)





Lemma get_source_node_loop_skip source_id pre rest :
  Forall (other_source source_id) pre ->
  get_source_node_loop source_id (pre ++ rest) = get_source_node_loop source_id rest.
Proof.
  induction 1 as [|node pre Hnode _ IH]; simpl; [done|].
  case_tag; [|done].
  destruct (Hnode e) as (id & -> & Hne). simpl.
  destruct (Z.eqb_spec source_id id); [congruence | done].
Qed.

Lemma get_source_node_loop_found source_id pre source post :
  Forall (other_source source_id) pre ->
  name source = "Source" -> get_id_attribute source = Ok source_id ->
  get_source_node_loop source_id (pre ++ source :: post) = Ok source.
Proof.
  intros Hpre Htag Hid. rewrite (get_source_node_loop_skip _ _ _ Hpre). simpl.
  apply String.eqb_eq in Htag as ->. rewrite Hid. simpl. by rewrite Z.eqb_refl.
Qed.

Lemma get_source_node_loop_not_found source_id nodes :
  Forall (other_source source_id) nodes ->
  get_source_node_loop source_id nodes = Throw (source_not_found source_id).
Proof.
  intros Hall. rewrite <- (app_nil_r nodes).
  by rewrite (get_source_node_loop_skip _ _ _ Hall).
Qed.

Lemma get_source_node_loop_elem source_id nodes source :
  get_source_node_loop source_id nodes = Ok source ->
  source ∈ nodes /\ name source = "Source" /\ get_id_attribute source = Ok source_id.
Proof.
  induction nodes as [|node nodes IH]; simpl; [done|].
  assert (IH' : get_source_node_loop source_id nodes = Ok source ->
                source ∈ node :: nodes /\ name source = "Source"
                /\ get_id_attribute source = Ok source_id).
  { intros [? ?]%IH. split; [by right|done]. }
  case_tag; [|done].
  destruct (get_id_attribute node) as [id| |] eqn:Hid; simpl; try done.
  destruct (Z.eqb_spec source_id id) as [->|]; [|done].
  intros [= <-]. split; [by left|done].
Qed.

Lemma tagged_ids_app tag pre post :
  tagged_ids tag (pre ++ post) = tagged_ids tag pre ++ tagged_ids tag post.
Proof. apply omap_app. Qed.

Lemma tagged_ids_cons_tagged tag node nodes k :
  name node = tag -> get_id_attribute node = Ok k ->
  tagged_ids tag (node :: nodes) = k :: tagged_ids tag nodes.
Proof.
  intros Htag Hid. unfold tagged_ids. simpl.
  apply String.eqb_eq in Htag as ->. by rewrite Hid.
Qed.

Lemma tagged_ids_cons_untagged tag node nodes :
  name node <> tag -> tagged_ids tag (node :: nodes) = tagged_ids tag nodes.
Proof.
  intros Htag. unfold tagged_ids. simpl.
  by apply String.eqb_neq in Htag as ->.
Qed.

Lemma elem_of_tagged_ids tag nodes node k :
  node ∈ nodes -> name node = tag -> get_id_attribute node = Ok k ->
  k ∈ tagged_ids tag nodes.
Proof.
  intros Hin Htag Hid. apply list_elem_of_omap. exists node. split; [done|].
  apply String.eqb_eq in Htag as ->. by rewrite Hid.
Qed.

(** In a list whose tagged ids are pairwise distinct, no node before a
    tagged node carries its id. *)
Lemma NoDup_tagged_ids_before tag pre node post k :
  NoDup (tagged_ids tag (pre ++ node :: post)) ->
  name node = tag -> get_id_attribute node = Ok k ->
  forall n, n ∈ pre -> name n = tag -> get_id_attribute n <> Ok k.
Proof.
  intros Hnodup Htag Hid n Hn Htagn Hidn.
  rewrite tagged_ids_app, (tagged_ids_cons_tagged _ _ _ _ Htag Hid) in Hnodup.
  apply NoDup_app in Hnodup as (_ & Hdisjoint & _).
  apply (Hdisjoint k); [by eapply elem_of_tagged_ids | by left].
Qed.

Lemma length_tagged_ids {V} tag (value_of : xml_node -> outcome V) nodes :
  Forall (entry_ok tag value_of) nodes ->
  length (tagged_ids tag nodes) = length (List.filter (fun c => String.eqb (name c) tag) nodes).
Proof.
  induction 1 as [|node nodes Hnode _ IH]; [done|].
  destruct (String.eqb_spec (name node) tag) as [Htag|Htag].
  - destruct (Hnode Htag) as [[id Hid]%is_ok_true _].
    rewrite (tagged_ids_cons_tagged _ _ _ _ Htag Hid). cbn [List.filter].
    apply String.eqb_eq in Htag as ->. cbn [length]. by rewrite IH.
  - rewrite (tagged_ids_cons_untagged _ _ _ Htag). cbn [List.filter].
    by apply String.eqb_neq in Htag as ->.
Qed.

Lemma scan_insert_size {V} tag (value_of : xml_node -> outcome V) nodes (m m' : gmap Z V) :
  scan_insert tag value_of nodes m = Ok m' ->
  NoDup (tagged_ids tag nodes) ->
  (forall k, k ∈ tagged_ids tag nodes -> m !! k = None) ->
  size m' = (size m + length (tagged_ids tag nodes))%nat.
Proof.
  revert m; induction nodes as [|node nodes IH]; intros m.
  - intros [= ->] _ _. simpl. lia.
  - cbn [scan_insert]. destruct (String.eqb_spec (name node) tag) as [Htag|Htag].
    + destruct (get_id_attribute node) as [id| |] eqn:Hid; simpl; try done.
      destruct (value_of node) as [v| |] eqn:Hv; simpl; try done.
      rewrite (tagged_ids_cons_tagged _ _ _ _ Htag Hid).
      intros Hscan [Hfresh Hnodup]%NoDup_cons Hnone.
      rewrite (IH _ Hscan Hnodup).
      * rewrite size_unordered_map_insert_fresh; [simpl; lia|].
        apply Hnone. by left.
      * intros k Hk. rewrite lookup_unordered_map_insert.
        rewrite Hnone by (by right).
        case_decide; [by subst|done].
    + rewrite (tagged_ids_cons_untagged _ _ _ Htag). apply IH.
Qed.

(** ** Definitions documents *)

Lemma get_first_node_root root rest :
  name root = "Format" -> get_first_node (root :: rest) = Ok (children root).
Proof. intros Hroot. simpl. by apply String.eqb_eq in Hroot as ->. Qed.

Lemma well_formed_locates document root rest source source_id :
  well_formed_definitions document ->
  document = root :: rest ->
  source ∈ children root -> name source = "Source" ->
  get_id_attribute source = Ok source_id ->
  get_source_node source_id document = Ok source /\ well_formed_source source.
Proof.
  intros (root' & rest' & Hdoc & Hformat & Hall & Hnodup) -> Hin Htag Hid.
  injection Hdoc as <- <-.
  unfold get_source_node. rewrite (get_first_node_root _ _ Hformat). simpl.
  apply list_elem_of_split in Hin as (pre & post & Hsplit). rewrite Hsplit in *.
  apply Forall_app in Hall as [Hpre Hall]. apply Forall_cons in Hall as [Hsource _].
  split; [|by apply Hsource].
  apply get_source_node_loop_found; [|done..].
  apply Forall_forall. intros n Hn Hntag.
  rewrite Forall_forall in Hpre.
  destruct (Hpre n Hn Hntag) as [[id Hnid]%is_ok_true _].
  exists id. split; [done|]. intros ->.
  by apply (NoDup_tagged_ids_before _ _ _ _ _ Hnodup Htag Hid n Hn Hntag).
Qed.

Section DefinitionsDocument.
Variable xml_parse : list ascii -> option xml_document.

(** C1. For a well-formed definitions document and a source id present in
    it, [get_source_module_verbosity] returns a map with exactly one entry,
    module id to verbosity, for each [Module] child of the [Source] node
    with that id, and every entry of the map comes from such a child: none
    comes from another source. *)
Theorem module_verbosity_exact xml source_id document root rest source :
  xml_parse (string_to_char_buffer xml) = Some document ->
  well_formed_definitions document ->
  document = root :: rest ->
  source ∈ children root -> name source = "Source" ->
  get_id_attribute source = Ok source_id ->
  exists m,
    get_source_module_verbosity xml_parse source_id xml = Ok m
    /\ (forall c, c ∈ children source -> name c = "Module" ->
          exists k v, get_id_attribute c = Ok k
                      /\ get_verbosity_attribute c = Ok v /\ m !! k = Some v)
    /\ (forall k v, m !! k = Some v ->
          exists c, c ∈ children source /\ name c = "Module"
                    /\ get_id_attribute c = Ok k /\ get_verbosity_attribute c = Ok v)
    /\ size m = length (List.filter (fun c => String.eqb (name c) "Module") (children source)).
Proof.
  intros Hparse Hwf Hdoc Hin Htag Hid.
  destruct (well_formed_locates _ _ _ _ _ Hwf Hdoc Hin Htag Hid) as [Hfound [Hmodules Hnodup]].
  rewrite (get_source_module_verbosity_parsed _ _ _ _ Hparse), Hfound. simpl.
  destruct (scan_insert_ok "Module" get_verbosity_attribute _ ∅ Hmodules) as [m Hm].
  exists m. split; [done|]. split; [|split].
  - intros c Hc Hctag.
    apply list_elem_of_split in Hc as (l1 & l2 & Hsplit).
    rewrite Hsplit in Hmodules, Hnodup, Hm.
    apply Forall_app in Hmodules as [_ Hmodules].
    apply Forall_cons in Hmodules as [Hcok _].
    destruct (Hcok Hctag) as [[k Hk]%is_ok_true [v Hv]%is_ok_true].
    exists k, v. split; [done|]. split; [done|].
    rewrite (scan_insert_lookup _ _ _ _ _ k Hm), lookup_empty.
    apply first_entry_first; [|done..].
    by apply (NoDup_tagged_ids_before _ _ _ _ _ Hnodup).
  - intros k v Hkv.
    rewrite (scan_insert_lookup _ _ _ _ _ k Hm), lookup_empty in Hkv.
    by apply first_entry_some in Hkv.
  - rewrite (scan_insert_size _ _ _ _ _ Hm Hnodup); [|intros; apply lookup_empty].
    rewrite map_size_empty. simpl.
    by apply (length_tagged_ids _ get_verbosity_attribute).
Qed.




(** C9. A [Source] node without an [id] attribute that the search reaches
    (every [Source] before it has an integer id other than the requested
    one) aborts [get_source_parser_file_path] and
    [get_source_module_verbosity] with the missing-[id] error, whatever
    follows it, also a [Source] with the requested id. *)
Theorem source_without_id_aborts xml source_id document nodes pre anonymous post :
  xml_parse (string_to_char_buffer xml) = Some document ->
  get_first_node document = Ok nodes ->
  nodes = pre ++ anonymous :: post ->
  Forall (other_source source_id) pre ->
  name anonymous = "Source" ->
  find_attribute "id" (attributes anonymous) = None ->
  get_source_parser_file_path xml_parse source_id xml = Throw (missing_attribute "id" "Source")
  /\ get_source_module_verbosity xml_parse source_id xml = Throw (missing_attribute "id" "Source").
Proof.
  intros Hparse Hfirst -> Hpre Htag Hnone.
  assert (Hnode : get_source_node source_id document = Throw (missing_attribute "id" "Source")).
  { unfold get_source_node. rewrite Hfirst. simpl.
    rewrite (get_source_node_loop_skip _ _ _ Hpre). simpl.
    unfold get_id_attribute. rewrite Hnone, Htag. done. }
  rewrite (get_source_parser_file_path_parsed _ _ _ _ Hparse),
    (get_source_module_verbosity_parsed _ _ _ _ Hparse), Hnode. done.
Qed.

End DefinitionsDocument.

(** ** The parser file of a source *)

Lemma string_empty_true s : string_empty s = true <-> s = "".
Proof. destruct s; simpl; split; intros; done. Qed.

Lemma get_file_path_loop_skip before rest :
  (forall f, f ∈ before -> name f = "File" -> find_attribute "Path" (attributes f) = None) ->
  get_file_path_loop (before ++ rest) = get_file_path_loop rest.
Proof.
  induction before as [|node before IH]; intros Hnone; simpl; [done|].
  assert (IH' : get_file_path_loop (before ++ rest) = get_file_path_loop rest).
  { apply IH. intros f Hf. apply Hnone. by right. }
  case_tag; [|done].
  by rewrite (Hnone node (list_elem_of_here _ _) e).
Qed.

Lemma get_file_path_first source path :
  first_path source path -> get_file_path source = path.
Proof.
  intros (before & file & after & Hsplit & Htag & Hpath & Hnone).
  unfold get_file_path. rewrite Hsplit, (get_file_path_loop_skip _ _ Hnone). simpl.
  apply String.eqb_eq in Htag as ->. by rewrite Hpath.
Qed.

Lemma get_file_path_none source : no_path source -> get_file_path source = "".
Proof.
  intros Hnone. unfold get_file_path.
  rewrite <- (app_nil_r (children source)).
  by rewrite (get_file_path_loop_skip _ _ Hnone).
Qed.

Lemma first_path_or_none source :
  first_path source (get_file_path source) \/ no_path source.
Proof.
  unfold first_path, no_path, get_file_path.
  induction (children source) as [|node nodes IH]; simpl.
  - right. intros f Hf. by apply elem_of_nil in Hf.
  - assert (Hskip :
      (name node = "File" -> find_attribute "Path" (attributes node) = None) ->
      (exists before file after,
          node :: nodes = before ++ file :: after /\ name file = "File"
          /\ find_attribute "Path" (attributes file) = Some (get_file_path_loop nodes)
          /\ forall f, f ∈ before -> name f = "File" ->
                       find_attribute "Path" (attributes f) = None)
      \/ (forall f, f ∈ node :: nodes -> name f = "File" ->
                    find_attribute "Path" (attributes f) = None)).
    { intros Hnode. destruct IH as [(before & file & after & -> & ? & ? & Hbefore)|Hnone].
      - left. exists (node :: before), file, after. split; [done|]. split; [done|].
        split; [done|]. intros f [->|Hf]%elem_of_cons; [done|by apply Hbefore].
      - right. intros f [->|Hf]%elem_of_cons; [done|by apply Hnone]. }
    case_tag; [|apply Hskip; congruence].
    destruct (find_attribute "Path" (attributes node)) as [path|] eqn:Hpath.
    + left. exists [], node, nodes. split; [done|]. split; [done|]. split; [done|].
      intros f Hf. by apply elem_of_nil in Hf.
    + by apply Hskip.
Qed.

Lemma first_path_unique source p q : first_path source p -> first_path source q -> p = q.
Proof. intros <-%get_file_path_first <-%get_file_path_first. done. Qed.

Section SourceParserFile.
Variable xml_parse : list ascii -> option xml_document.

(** C7, amended. [get_source_parser_file_path] returns the [Path] of the
    first [File] child, of the first [Source] with the requested id, that
    carries a [Path] attribute, when that path is not empty; it fails with
    the missing-file error exactly when that path is empty or no [File]
    child carries a [Path]; it fails with the not-found error when every
    [Source] node has an integer id other than the requested one. *)
Theorem source_parser_file_path_first_path xml source_id document nodes :
  xml_parse (string_to_char_buffer xml) = Some document ->
  get_first_node document = Ok nodes ->
  (forall pre source post,
      nodes = pre ++ source :: post ->
      Forall (other_source source_id) pre ->
      name source = "Source" -> get_id_attribute source = Ok source_id ->
      (forall path, get_source_parser_file_path xml_parse source_id xml = Ok path
                    <-> first_path source path /\ path <> "")
      /\ (get_source_parser_file_path xml_parse source_id xml = Throw (missing_file source_id)
          <-> first_path source "" \/ no_path source))
  /\ (Forall (other_source source_id) nodes ->
      get_source_parser_file_path xml_parse source_id xml = Throw (source_not_found source_id)).
Proof.
  intros Hparse Hfirst.
  rewrite (get_source_parser_file_path_parsed _ _ _ _ Hparse).
  unfold get_source_node. rewrite Hfirst. simpl. split.
  - intros pre source post -> Hpre Htag Hid.
    rewrite (get_source_node_loop_found _ _ _ _ Hpre Htag Hid). simpl.
    destruct (string_empty (get_file_path source)) eqn:Hempty.
    + apply string_empty_true in Hempty. split.
      * intros path. split; [done|].
        intros [Hpath Hne]. apply get_file_path_first in Hpath. congruence.
      * split; [|done]. intros _.
        destruct (first_path_or_none source) as [Hpath|Hnone]; [|by right].
        left. by rewrite Hempty in Hpath.
    + assert (Hne : get_file_path source <> "").
      { intros Heq%string_empty_true. congruence. }
      split.
      * intros path. split.
        -- intros [= <-]. split; [|done].
           destruct (first_path_or_none source) as [Hpath|Hnone]; [done|].
           by apply get_file_path_none in Hnone.
        -- intros [Hpath _]. by rewrite (get_file_path_first _ _ Hpath).
      * split; [done|].
        intros [Hpath|Hnone]; exfalso; apply Hne.
        -- by apply get_file_path_first.
        -- by apply get_file_path_none.
  - intros Hall. by rewrite (get_source_node_loop_not_found _ _ Hall).
Qed.

End SourceParserFile.

Lemma source_parser_file_path_first_path_witness :
  get_source_parser_file_path Samples.parser 1 Samples.definitions_text = Ok "fw.xml"
  /\ get_source_parser_file_path Samples.parser 1 Samples.two_files_text = Throw (missing_file 1)
  /\ get_source_parser_file_path Samples.parser 5 Samples.definitions_text
     = Throw (source_not_found 5).
Proof.
  split; [|split].
  - destruct (source_parser_file_path_first_path Samples.parser Samples.definitions_text 1
                Samples.definitions [Samples.hw_source; Samples.fw_source])
      as [Hlocated _]; [by vm_compute|done|].
    assert (Hskip : Forall (other_source 1) [Samples.hw_source]).
    { constructor; [|constructor]. intros _. exists 0. by vm_compute. }
    destruct (Hlocated [Samples.hw_source] Samples.fw_source [] eq_refl Hskip eq_refl eq_refl)
      as [Hpath _].
    apply Hpath. split; [|done].
    exists [], (element "File" [("Path", "fw.xml")] []),
      [element "Module" [("id", "7"); ("verbosity", "0")] []].
    repeat split; try done. intros f Hf. by apply elem_of_nil in Hf.
  - destruct (source_parser_file_path_first_path Samples.parser Samples.two_files_text 1
                Samples.two_files [Samples.two_files_source])
      as [Hlocated _]; [by vm_compute|done|].
    destruct (Hlocated [] Samples.two_files_source [] eq_refl (List.Forall_nil _) eq_refl eq_refl)
      as [_ Hmissing].
    apply Hmissing. left.
    exists [], (element "File" [("Path", "")] []), [element "File" [("Path", "parser.xml")] []].
    repeat split; try done. intros f Hf. by apply elem_of_nil in Hf.
  - destruct (source_parser_file_path_first_path Samples.parser Samples.definitions_text 5
                Samples.definitions [Samples.hw_source; Samples.fw_source])
      as [_ Hnone]; [by vm_compute|done|].
    apply Hnone. repeat constructor.
    + intros _. exists 0. by vm_compute.
    + intros _. exists 1. by vm_compute.
Defined.

(** C7, as stated, is false: the sample source has a [File] child with
    the non-empty path [parser.xml], yet the call fails with the
    missing-file error, because an earlier [File] child has an empty
    [Path]. *)
Lemma missing_file_exactly_without_path_refuted : ~ missing_file_exactly_without_path.
Proof.
  intros Hclaim.
  destruct (Hclaim Samples.parser Samples.two_files_text 1 Samples.two_files
              Samples.two_files_source) as [Hfails _]; [by vm_compute|by vm_compute|].
  assert (Hpath : "parser.xml" = ""); [|discriminate].
  apply (Hfails ltac:(by vm_compute) (element "File" [("Path", "parser.xml")] [])); try done.
  right. left.
Qed.

(** ** The sample definitions documents *)

Lemma definitions_well_formed : well_formed_definitions Samples.definitions.
Proof.
  exists (element "Format" [] [Samples.hw_source; Samples.fw_source]), [].
  split; [done|]. split; [done|]. split.
  - cbn [children element].
    each_node ltac:(intros _; split; [by vm_compute|]; split;
      [ unfold Samples.hw_source, Samples.fw_source; cbn [children element];
        each_node ltac:(intros Htag; try discriminate Htag; by vm_compute)
      | by apply (bool_decide_unpack _); vm_compute ]).
  - by apply (bool_decide_unpack _); vm_compute.
Qed.

Lemma module_verbosity_exact_witness :
  exists m, get_source_module_verbosity Samples.parser 0 Samples.definitions_text = Ok m
            /\ m !! 0 = Some 1 /\ m !! 1 = Some 2 /\ size m = 2%nat.
Proof.
  destruct (module_verbosity_exact Samples.parser Samples.definitions_text 0
              Samples.definitions (element "Format" [] [Samples.hw_source; Samples.fw_source])
              [] Samples.hw_source)
    as (m & Hm & Hchildren & _ & Hsize).
  - by vm_compute.
  - apply definitions_well_formed.
  - done.
  - by left.
  - done.
  - by vm_compute.
  - exists m. split; [done|].
    destruct (Hchildren (element "Module" [("id", "0"); ("verbosity", "1")] []))
      as (k0 & v0 & Hk0 & Hv0 & Hm0); [right; by left|done|].
    destruct (Hchildren (element "Module" [("id", "1"); ("verbosity", "2")] []))
      as (k1 & v1 & Hk1 & Hv1 & Hm1); [right; right; by left|done|].
    vm_compute in Hk0, Hv0, Hk1, Hv1.
    injection Hk0 as <-. injection Hv0 as <-. injection Hk1 as <-. injection Hv1 as <-.
    done.
Defined.


Lemma source_without_id_aborts_witness :
  get_source_parser_file_path Samples.parser 1 Samples.anonymous_source_text
  = Throw (missing_attribute "id" "Source")
  /\ get_source_module_verbosity Samples.parser 1 Samples.anonymous_source_text
     = Throw (missing_attribute "id" "Source").
Proof.
  apply (source_without_id_aborts Samples.parser Samples.anonymous_source_text 1
           Samples.anonymous_source_document [Samples.anonymous_source; Samples.fw_source]
           [] Samples.anonymous_source [Samples.fw_source]).
  - by vm_compute.
  - done.
  - done.
  - constructor.
  - done.
  - done.
Defined.

(** ** The empty-content check *)

Lemma not_rejected_bind {A B} (r : outcome A) (f : A -> outcome B) :
  not_rejected_as_empty r -> (forall a, not_rejected_as_empty (f a)) ->
  not_rejected_as_empty (r ≫= f).
Proof.
  unfold not_rejected_as_empty. intros Hr Hf.
  destruct r as [a|e|]; simpl; [apply Hf | congruence | done].
Qed.

Lemma stoi_digits_quiet negative s : not_rejected_as_empty (stoi_digits negative s).
Proof.
  unfold not_rejected_as_empty.
  destruct s as [|c s]; simpl; [done|].
  destruct (isdigit c); [|done]. by destruct (_ && _).
Qed.

Lemma stoi_quiet s : not_rejected_as_empty (stoi s).
Proof.
  unfold stoi.
  destruct (skip_spaces s) as [|[[] [] [] [] [] [] [] []] rest];
    cbv zeta; apply stoi_digits_quiet.
Qed.

Lemma get_id_attribute_quiet node : not_rejected_as_empty (get_id_attribute node).
Proof.
  unfold get_id_attribute.
  destruct (find_attribute "id" (attributes node)); [apply stoi_quiet|done].
Qed.

Lemma get_verbosity_attribute_quiet node : not_rejected_as_empty (get_verbosity_attribute node).
Proof.
  unfold get_verbosity_attribute.
  destruct (find_attribute "verbosity" (attributes node)); [apply stoi_quiet|done].
Qed.

Lemma get_name_attribute_quiet node : not_rejected_as_empty (get_name_attribute node).
Proof.
  unfold get_name_attribute.
  by destruct (find_attribute "Name" (attributes node)).
Qed.

Lemma get_first_node_quiet document : not_rejected_as_empty (get_first_node document).
Proof. destruct document as [|root rest]; simpl; [done|]. by case_tag. Qed.

Lemma get_source_node_quiet source_id document :
  not_rejected_as_empty (get_source_node source_id document).
Proof.
  apply not_rejected_bind; [apply get_first_node_quiet|]. intros nodes.
  induction nodes as [|node nodes IH]; simpl; [done|].
  case_tag; [|done].
  apply not_rejected_bind; [apply get_id_attribute_quiet|].
  intros id. by destruct (source_id =? id).
Qed.

Lemma scan_insert_quiet {V} tag (value_of : xml_node -> outcome V) nodes m :
  (forall node, not_rejected_as_empty (value_of node)) ->
  not_rejected_as_empty (scan_insert tag value_of nodes m).
Proof.
  intros Hvalue. revert m; induction nodes as [|node nodes IH]; intros m; simpl; [done|].
  case_tag; [|done].
  apply not_rejected_bind; [apply get_id_attribute_quiet|]. intros id.
  apply not_rejected_bind; [apply Hvalue|]. intros v. apply IH.
Qed.

Lemma get_event_data_quiet node : not_rejected_as_empty (get_event_data node).
Proof.
  unfold get_event_data.
  apply not_rejected_bind.
  - generalize (-1) "". induction (attributes node) as [|a attrs IH]; intros n f; simpl; [done|].
    case_tag; [|case_tag; apply IH].
    apply not_rejected_bind; [apply stoi_quiet|]. intros n'. apply IH.
  - intros [n f]. by destruct (_ || _).
Qed.

Lemma get_enum_values_quiet enum_node : not_rejected_as_empty (get_enum_values enum_node).
Proof.
  unfold get_enum_values. generalize (@nil (Z * string)).
  induction (children enum_node) as [|node nodes IH]; intros values; simpl; [done|].
  case_tag; [|apply IH].
  apply not_rejected_bind.
  - generalize (-1) "". induction (attributes node) as [|a attrs IHa]; intros k v; simpl; [done|].
    case_tag; [|case_tag; apply IHa].
    apply not_rejected_bind; [apply stoi_quiet|]. intros k'. apply IHa.
  - intros [k v]. destruct (_ || _); [done|apply IH].
Qed.

Lemma get_enums_loop_quiet nodes m : not_rejected_as_empty (get_enums_loop nodes m).
Proof.
  revert m; induction nodes as [|node nodes IH]; intros m; simpl; [done|].
  case_tag; [|apply IH].
  apply not_rejected_bind; [|intros m'; apply IH].
  generalize m. induction (children node) as [|enum_node enum_nodes IHe]; intros m0; simpl; [done|].
  apply not_rejected_bind; [|intros m'; apply IHe].
  generalize m0. induction (attributes enum_node) as [|a attrs IHa]; intros m1; simpl; [done|].
  apply not_rejected_bind; [apply get_enum_values_quiet|]. intros values. apply IHa.
Qed.

Section EmptyContent.
Variable xml_parse : list ascii -> option xml_document.

Lemma load_external_xml_quiet xml :
  not_rejected_as_empty (load_external_xml xml_parse (string_to_char_buffer xml)).
Proof.
  unfold not_rejected_as_empty. rewrite load_external_xml_parses.
  by destruct (xml_parse _).
Qed.

(** No entry point ever raises "Empty XML content", whatever the text. *)
Lemma entry_points_never_reject_empty xml source_id tag :
  not_rejected_as_empty (get_source_parser_file_path xml_parse source_id xml)
  /\ not_rejected_as_empty (get_source_module_verbosity xml_parse source_id xml)
  /\ not_rejected_as_empty (get_events xml_parse xml)
  /\ not_rejected_as_empty (get_id_to_names xml_parse xml tag)
  /\ not_rejected_as_empty (get_enums xml_parse xml).
Proof.
  repeat split.
  - apply not_rejected_bind; [apply load_external_xml_quiet|]. intros document.
    apply not_rejected_bind; [apply get_source_node_quiet|]. intros source.
    simpl. by destruct (string_empty _).
  - apply not_rejected_bind; [apply load_external_xml_quiet|]. intros document.
    apply not_rejected_bind; [apply get_source_node_quiet|]. intros source.
    rewrite get_source_module_verbosity_loop_scan.
    apply scan_insert_quiet, get_verbosity_attribute_quiet.
  - apply not_rejected_bind; [apply load_external_xml_quiet|]. intros document.
    apply not_rejected_bind; [apply get_first_node_quiet|]. intros nodes.
    rewrite get_events_loop_scan. apply scan_insert_quiet, get_event_data_quiet.
  - apply not_rejected_bind; [apply load_external_xml_quiet|]. intros document.
    apply not_rejected_bind; [apply get_first_node_quiet|]. intros nodes.
    rewrite get_id_to_names_loop_scan. apply scan_insert_quiet, get_name_attribute_quiet.
  - apply not_rejected_bind; [apply load_external_xml_quiet|]. intros document.
    apply not_rejected_bind; [apply get_first_node_quiet|]. intros nodes.
    apply get_enums_loop_quiet.
Qed.

(** C6 (the code departs from the claim). For the empty document text
    the buffer built by [string_to_char_buffer] holds the two terminators,
    so the emptiness check of [load_external_xml] does not fire: the parser
    is run on the buffer, and no entry point raises "Empty XML content". *)
Theorem empty_document_not_rejected source_id :
  string_to_char_buffer "" = [zero; zero]
  /\ load_external_xml xml_parse (string_to_char_buffer "")
     = match xml_parse [zero; zero] with
       | Some document => Ok document
       | None => Throw parse_error
       end
  /\ get_source_parser_file_path xml_parse source_id "" <> Throw empty_xml_content
  /\ get_source_module_verbosity xml_parse source_id "" <> Throw empty_xml_content
  /\ get_events xml_parse "" <> Throw empty_xml_content
  /\ get_files xml_parse "" <> Throw empty_xml_content
  /\ get_modules xml_parse "" <> Throw empty_xml_content
  /\ get_threads xml_parse "" <> Throw empty_xml_content
  /\ get_enums xml_parse "" <> Throw empty_xml_content.
Proof.
  split; [done|]. split; [done|].
  destruct (entry_points_never_reject_empty "" source_id "File") as (? & ? & ? & ? & ?).
  destruct (entry_points_never_reject_empty "" source_id "Module") as (_ & _ & _ & ? & _).
  destruct (entry_points_never_reject_empty "" source_id "Thread") as (_ & _ & _ & ? & _).
  repeat split; done.
Qed.

(** With a parser that, like rapidxml, builds a tree without nodes from
    the empty text, the root pointer is null and every entry point
    dereferences it. *)
Lemma empty_document_dereferences_null source_id :
  xml_parse [zero; zero] = Some [] ->
  get_source_parser_file_path xml_parse source_id "" = Undefined
  /\ get_source_module_verbosity xml_parse source_id "" = Undefined
  /\ get_events xml_parse "" = Undefined
  /\ get_files xml_parse "" = Undefined
  /\ get_modules xml_parse "" = Undefined
  /\ get_threads xml_parse "" = Undefined
  /\ get_enums xml_parse "" = Undefined.
Proof.
  intros Hparse.
  unfold get_source_parser_file_path, get_source_module_verbosity, get_events,
    get_files, get_modules, get_threads, get_id_to_names, get_enums.
  change (string_to_char_buffer "") with [zero; zero].
  unfold load_external_xml. rewrite Hparse. done.
Qed.

End EmptyContent.

(** ** Parameter decoding *)

Module ParameterDecoderFacts.
Import ParameterDecoder.

Lemma decode_from_lengths blob cursor expected_total params values :
  (cursor <= length blob)%nat ->
  decode_from blob cursor expected_total params values =
    match Nat.compare (length blob) (cursor + total_width params) with
    | Lt => inl (TruncatedBlob expected_total (length blob))
    | Gt => inl TrailingBytes
    | Eq => inr (values ++ values_at blob cursor params)
    end.
Proof.
  revert cursor values; induction params as [|p params IH]; intros cursor values Hcursor; simpl.
  - rewrite Nat.add_0_r, app_nil_r.
    destruct (Nat.ltb_spec cursor (length blob)) as [Hlt|Hge].
    + by apply Nat.compare_gt_iff in Hlt as ->.
    + assert (length blob = cursor) as Heq by lia.
      by apply Nat.compare_eq_iff in Heq as ->.
  - destruct (Nat.ltb_spec (length blob) (cursor + width p)) as [Hlt|Hge].
    + assert (length blob < cursor + (width p + total_width params))%nat as Hshort by lia.
      by apply Nat.compare_lt_iff in Hshort as ->.
    + rewrite (IH _ _ Hge), Nat.add_assoc, <- app_assoc. done.
Qed.

(** C8. The decode succeeds only when the blob length equals the sum of
    the parameter widths; a shorter blob fails with [TruncatedBlob], a
    longer one, be it by a single byte, with [TrailingBytes]. *)
Theorem decode_params_strict_length blob params :
  decode_params blob params =
    match Nat.compare (length blob) (total_width params) with
    | Lt => inl (TruncatedBlob (total_width params) (length blob))
    | Gt => inl TrailingBytes
    | Eq => inr (values_at blob 0 params)
    end.
Proof.
  unfold decode_params. rewrite decode_from_lengths by lia. done.
Qed.

End ParameterDecoderFacts.

(** ** Reading an integer and a text attribute *)

Lemma append_nil_r s : s +:+ "" = s.
Proof. induction s as [|c s IH]; [done|]. change (String c (s +:+ "") = String c s). by rewrite IH. Qed.

Lemma append_assoc s t u : (s +:+ t) +:+ u = s +:+ (t +:+ u).
Proof.
  induction s as [|c s IH]; [done|].
  change (String c ((s +:+ t) +:+ u) = String c (s +:+ (t +:+ u))). by rewrite IH.
Qed.

Lemma append_empty s t : s +:+ t = "" -> s = "" /\ t = "".
Proof. destruct s; [done|]. intros H. change (String a (s +:+ t) = "") in H. discriminate. Qed.

Lemma concat_values_empty values : Forall (fun v => v = "") values -> concat_values values = "".
Proof. induction 1 as [|v values -> _ IH]; [done|]. exact IH. Qed.

Lemma last_integer_last n values s z :
  last values = Some s -> stoi s = Ok z -> last_integer n values = z.
Proof.
  intros [init ->]%last_Some Hs. unfold last_integer.
  rewrite fold_left_app. simpl. by rewrite Hs.
Qed.

Section ReadPair.
Variables integer_key text_key : string.
Hypothesis keys_differ : integer_key <> text_key.

Lemma read_pair_ok_inv attrs n text n' text' :
  read_pair integer_key text_key attrs n text = Ok (n', text') ->
  n' = last_integer n (attribute_values integer_key attrs)
  /\ text' = text +:+ concat_values (attribute_values text_key attrs).
Proof.
  revert n text; induction attrs as [|a attrs IH]; intros n text; simpl.
  - intros [= <- <-]. by rewrite append_nil_r.
  - destruct (String.eqb_spec (attr_name a) integer_key) as [Hint|Hint].
    + destruct (String.eqb_spec (attr_name a) text_key) as [Htext|Htext]; [congruence|].
      destruct (stoi (attr_value a)) as [z| |] eqn:Hz; simpl; try done.
      intros [-> ->]%IH. unfold last_integer. simpl. by rewrite Hz.
    + destruct (String.eqb_spec (attr_name a) text_key) as [Htext|Htext]; [|apply IH].
      intros [-> ->]%IH. split; [done|].
      change (concat_values (attr_value a :: attribute_values text_key attrs))
        with (attr_value a +:+ concat_values (attribute_values text_key attrs)).
      by rewrite append_assoc.
Qed.

Lemma read_pair_ok attrs n text :
  Forall (fun s => is_ok (stoi s) = true) (attribute_values integer_key attrs) ->
  read_pair integer_key text_key attrs n text =
    Ok (last_integer n (attribute_values integer_key attrs),
        text +:+ concat_values (attribute_values text_key attrs)).
Proof.
  intros Hint.
  assert (Hok : exists p, read_pair integer_key text_key attrs n text = Ok p).
  { revert n text; induction attrs as [|a attrs IH]; intros n text; simpl; [eauto|].
    simpl in Hint. destruct (String.eqb_spec (attr_name a) integer_key).
    - apply Forall_cons in Hint as [[z ->]%is_ok_true Hint]. simpl. by apply IH.
    - destruct (String.eqb_spec (attr_name a) text_key); by apply IH. }
  destruct Hok as [[n' text'] Hok]. rewrite Hok.
  by apply read_pair_ok_inv in Hok as [-> ->].
Qed.

Lemma read_pair_quiet attrs n text :
  not_rejected_as_empty (read_pair integer_key text_key attrs n text).
Proof.
  revert n text; induction attrs as [|a attrs IH]; intros n text; simpl; [done|].
  case_tag; [|case_tag; apply IH].
  apply not_rejected_bind; [apply stoi_quiet|]. intros n'. apply IH.
Qed.

(** An absent or degenerate attribute makes the pair unusable. *)
Lemma unusable_attribute_pair node :
  integers integer_key node ->
  absent integer_key node \/ negative_integer integer_key node
  \/ absent text_key node \/ empty_text text_key node ->
  usable_pair (attribute_pair integer_key text_key node) = false.
Proof.
  unfold usable_pair, attribute_pair, absent, negative_integer, empty_text. simpl.
  intros Hint [Habsent|[(s & z & Hlast & Hs & Hneg)|[Habsent|[_ Hempty]]]].
  - rewrite Habsent. done.
  - rewrite (last_integer_last _ _ _ _ Hlast Hs).
    by apply Z.ltb_lt in Hneg as ->.
  - rewrite Habsent. simpl. by rewrite orb_true_r.
  - rewrite (concat_values_empty _ Hempty). simpl. by rewrite orb_true_r.
Qed.
End ReadPair.

Lemma get_event_data_loop_read attrs n format :
  get_event_data_loop attrs n format = read_pair "numberOfArguments" "format" attrs n format.
Proof.
  revert n format; induction attrs as [|a attrs IH]; intros n format; simpl; [done|].
  case_tag; [|case_tag; apply IH].
  destruct (stoi (attr_value a)); simpl; try done.
Qed.

Lemma enum_value_attributes_read attrs key value :
  enum_value_attributes attrs key value = read_pair "Key" "Value" attrs key value.
Proof.
  revert key value; induction attrs as [|a attrs IH]; intros key value; simpl; [done|].
  case_tag; [|case_tag; apply IH].
  destruct (stoi (attr_value a)); simpl; try done.
Qed.


(** ** Enum values *)

Lemma get_enum_values_loop_ok_inv nodes values result :
  get_enum_values_loop nodes values = Ok result ->
  result = values ++ map (attribute_pair "Key" "Value")
                         (List.filter (fun node => String.eqb (name node) "EnumValue") nodes)
  /\ forallb (fun ev => usable_pair (attribute_pair "Key" "Value" ev))
             (List.filter (fun node => String.eqb (name node) "EnumValue") nodes) = true.
Proof.
  revert values; induction nodes as [|node nodes IH]; intros values; simpl.
  - intros [= <-]. by rewrite app_nil_r.
  - case_tag; [|apply IH].
    rewrite enum_value_attributes_read.
    destruct (read_pair "Key" "Value" (attributes node) (-1) "") as [[k v]| |] eqn:Hread;
      simpl; try done.
    apply read_pair_ok_inv in Hread as [-> ->]; [|done].
    destruct (_ || _) eqn:Hcond; simpl; [done|].
    intros [-> Hall]%IH. split; [by rewrite <- app_assoc|].
    rewrite Hall, andb_true_r. apply negb_true_iff. exact Hcond.
Qed.

Lemma get_enum_values_loop_integers nodes values :
  Forall (fun node => name node = "EnumValue" -> integers "Key" node) nodes ->
  get_enum_values_loop nodes values =
    if forallb (fun ev => usable_pair (attribute_pair "Key" "Value" ev))
               (List.filter (fun node => String.eqb (name node) "EnumValue") nodes)
    then Ok (values ++ map (attribute_pair "Key" "Value")
                           (List.filter (fun node => String.eqb (name node) "EnumValue") nodes))
    else Throw (missing_enum_value "EnumValue").
Proof.
  intros Hall; revert values; induction Hall as [|node nodes Hnode _ IH]; intros values; simpl.
  - by rewrite app_nil_r.
  - case_tag; [|apply IH].
    rewrite enum_value_attributes_read, read_pair_ok by (done || by apply Hnode). simpl.
    assert (Hcond : usable_pair (attribute_pair "Key" "Value" node)
                    = negb ((last_integer (-1) (attribute_values "Key" (attributes node)) <? 0)
                            || string_empty ("" +:+ concat_values
                                 (attribute_values "Value" (attributes node))))) by done.
    rewrite Hcond.
    destruct (_ || _); simpl; [by rewrite e|].
    rewrite IH, <- app_assoc. done.
Qed.

(** ** Enum groups *)

Lemma elem_of_enum_groups nodes group :
  group ∈ enum_groups nodes <->
  exists enums, enums ∈ nodes /\ name enums = "Enums" /\ group ∈ children enums.
Proof.
  unfold enum_groups. rewrite list_elem_of_In, in_flat_map. split.
  - intros (enums & [Hin Htag%String.eqb_eq]%filter_In & Hgroup).
    exists enums. by rewrite !list_elem_of_In.
  - intros (enums & Hin & Htag & Hgroup). exists enums.
    rewrite filter_In, <- !list_elem_of_In. by apply String.eqb_eq in Htag.
Qed.

Lemma elem_of_enum_values_of group ev :
  ev ∈ enum_values_of group <-> ev ∈ children group /\ name ev = "EnumValue".
Proof.
  unfold enum_values_of.
  by rewrite !list_elem_of_In, filter_In, String.eqb_eq.
Qed.

Lemma get_enums_enum_node_loop_app pre post m :
  get_enums_enum_node_loop (pre ++ post) m =
    get_enums_enum_node_loop pre m ≫= get_enums_enum_node_loop post.
Proof.
  revert m; induction pre as [|g pre IH]; intros m; simpl; [done|].
  destruct (get_enums_attribute_loop g (attributes g) m); simpl; try done.
Qed.

(** The two outer loops of [get_enums] visit the enum groups in document
    order. *)
Lemma get_enums_loop_flat nodes m :
  get_enums_loop nodes m = get_enums_enum_node_loop (enum_groups nodes) m.
Proof.
  unfold enum_groups.
  revert m; induction nodes as [|node nodes IH]; intros m; simpl; [done|].
  case_tag; [|apply IH].
  simpl. rewrite get_enums_enum_node_loop_app.
  destruct (get_enums_enum_node_loop (children node) m); simpl; try done.
Qed.

Lemma get_enums_attribute_loop_raises e group attrs m :
  raises_only e (get_enum_values group) ->
  raises_only e (get_enums_attribute_loop group attrs m).
Proof.
  intros Hgroup. revert m; induction attrs as [|a attrs IH]; intros m; simpl; [done|].
  destruct (get_enum_values group); simpl; try done.
Qed.

Lemma get_enums_attribute_loop_throw e group attrs m :
  get_enum_values group = Throw e -> attrs <> [] ->
  get_enums_attribute_loop group attrs m = Throw e.
Proof. intros Hgroup Hattrs. destruct attrs; [done|]. simpl. by rewrite Hgroup. Qed.

Lemma get_enums_enum_node_loop_throw e groups group m :
  (forall g, g ∈ groups -> raises_only e (get_enum_values g)) ->
  group ∈ groups -> attributes group <> [] ->
  get_enum_values group = Throw e ->
  get_enums_enum_node_loop groups m = Throw e.
Proof.
  intros Hall Hin Hattrs Hthrow. revert m.
  induction groups as [|g groups IH]; intros m; [by apply elem_of_nil in Hin|].
  simpl.
  pose proof (get_enums_attribute_loop_raises e g (attributes g) m
                (Hall g (list_elem_of_here _ _))) as Hg.
  destruct (get_enums_attribute_loop g (attributes g) m) as [m'|e'|] eqn:Hloop;
    simpl in *; [|by subst|done].
  apply elem_of_cons in Hin as [->|Hin].
  - rewrite (get_enums_attribute_loop_throw e g _ m Hthrow Hattrs) in Hloop. done.
  - apply IH; [|done]. intros g' Hg'. apply Hall. by right.
Qed.

Lemma get_enum_values_integers group :
  (forall ev, ev ∈ enum_values_of group -> integers "Key" ev) ->
  get_enum_values group =
    if forallb (fun ev => usable_pair (attribute_pair "Key" "Value" ev)) (enum_values_of group)
    then Ok (map (attribute_pair "Key" "Value") (enum_values_of group))
    else Throw (missing_enum_value "EnumValue").
Proof.
  intros Hint. unfold get_enum_values.
  rewrite get_enum_values_loop_integers; [done|].
  apply Forall_forall. intros ev Hev Htag. apply Hint.
  by apply elem_of_enum_values_of.
Qed.

Lemma get_enum_values_ok_inv group values :
  get_enum_values group = Ok values ->
  values = map (attribute_pair "Key" "Value") (enum_values_of group).
Proof. intros [-> _]%get_enum_values_loop_ok_inv. done. Qed.

Lemma forallb_false_elem {A} (f : A -> bool) l x : x ∈ l -> f x = false -> forallb f l = false.
Proof.
  intros Hin Hx. destruct (forallb f l) eqn:Hall; [|done].
  rewrite forallb_forall in Hall. rewrite <- (Hall x), Hx; [done|].
  by apply list_elem_of_In.
Qed.

Lemma forallb_false_inv {A} (f : A -> bool) l :
  forallb f l = false -> exists x, x ∈ l /\ f x = false.
Proof.
  induction l as [|a l IH]; simpl; [done|].
  destruct (f a) eqn:Ha; simpl.
  - intros (x & Hx & Hfx)%IH. exists x. split; [by right|done].
  - intros _. exists a. split; [by left|done].
Qed.

(** An unusable [EnumValue] in a group that carries an attribute makes
    [get_enums] raise the missing-Key/Value exception. *)
Lemma get_enums_loop_unusable nodes m group ev :
  enum_keys_are_integers nodes ->
  group ∈ enum_groups nodes -> attributes group <> [] ->
  ev ∈ enum_values_of group ->
  usable_pair (attribute_pair "Key" "Value" ev) = false ->
  get_enums_loop nodes m = Throw (missing_enum_value "EnumValue").
Proof.
  intros Hint Hgroup Hattrs Hev Hunusable.
  rewrite get_enums_loop_flat.
  apply (get_enums_enum_node_loop_throw _ _ group); [|done..|].
  - intros g Hg. rewrite get_enum_values_integers by (intros; by eapply Hint).
    by destruct (forallb _ _).
  - rewrite get_enum_values_integers by (intros; by eapply Hint).
    by rewrite (forallb_false_elem _ _ ev).
Qed.

(** *** Groups whose only attribute is the name *)

Lemma get_enums_enum_node_loop_plain groups m :
  Forall plain_group groups ->
  get_enums_enum_node_loop groups m = scan_groups groups m.
Proof.
  intros Hplain; revert m; induction Hplain as [|g groups [nm Hg] _ IH]; intros m; simpl; [done|].
  rewrite Hg. simpl.
  destruct (get_enum_values g) as [values| |]; simpl; try done.
  unfold group_name. rewrite Hg. simpl. apply IH.
Qed.

Lemma scan_groups_lookup groups m m' nm :
  scan_groups groups m = Ok m' ->
  m' !! nm = match m !! nm with
             | Some values => Some values
             | None => first_group nm groups
             end.
Proof.
  revert m; induction groups as [|g groups IH]; intros m; simpl.
  - intros [= ->]. by destruct (m' !! nm).
  - destruct (get_enum_values g) as [values| |] eqn:Hvalues; simpl; try done.
    intros Hscan. rewrite (IH _ Hscan), lookup_unordered_map_insert.
    destruct (m !! nm); [done|].
    apply get_enum_values_ok_inv in Hvalues as ->.
    case_decide as Hname.
    + by apply String.eqb_eq in Hname as ->.
    + by apply String.eqb_neq in Hname as ->.
Qed.

Lemma scan_groups_ok groups m :
  (forall g, g ∈ groups -> is_ok (get_enum_values g) = true) ->
  exists m', scan_groups groups m = Ok m'.
Proof.
  revert m; induction groups as [|g groups IH]; intros m Hall; simpl; [eauto|].
  destruct (proj1 (is_ok_true _) (Hall g (list_elem_of_here _ _))) as [values ->]. simpl.
  apply IH. intros g' Hg'. apply Hall. by right.
Qed.

Lemma first_group_first before group after nm :
  group_name group = nm ->
  (forall g, g ∈ before -> group_name g <> nm) ->
  first_group nm (before ++ group :: after)
  = Some (map (attribute_pair "Key" "Value") (enum_values_of group)).
Proof.
  intros Hname. induction before as [|g before IH]; intros Hbefore; simpl.
  - by apply String.eqb_eq in Hname as ->.
  - assert (Hg : group_name g <> nm) by (apply Hbefore; by left).
    apply String.eqb_neq in Hg as ->. apply IH. intros g' Hg'. apply Hbefore. by right.
Qed.

Lemma first_group_some nm groups values :
  first_group nm groups = Some values ->
  exists g, g ∈ groups /\ group_name g = nm.
Proof.
  induction groups as [|g groups IH]; simpl; [done|].
  destruct (String.eqb_spec (group_name g) nm) as [Hname|Hname].
  - intros _. exists g. split; [by left|done].
  - intros (g' & Hg' & ?)%IH. exists g'. split; [by right|done].
Qed.

Section ParserContents.
Variable xml_parse : list ascii -> option xml_document.

Lemma get_enums_parsed xml document nodes :
  xml_parse (string_to_char_buffer xml) = Some document ->
  get_first_node document = Ok nodes ->
  get_enums xml_parse xml = get_enums_loop nodes ∅.
Proof.
  intros Hparse Hfirst. unfold get_enums.
  rewrite (load_external_xml_parsed _ _ _ Hparse). simpl. by rewrite Hfirst.
Qed.

Lemma plain_group_name group nm :
  plain_group group ->
  find_attribute "Name" (attributes group) = Some nm <-> group_name group = nm.
Proof.
  intros [nm' Hattrs]. unfold group_name. rewrite Hattrs. simpl. split; congruence.
Qed.

(** C2, amended. In a parser-contents document whose enum groups (the
    children of the [Enums] nodes) each carry exactly one attribute, the
    [Name], a map returned by [get_enums] has as keys the names of the
    groups; each name is mapped to the ordered (Key, Value) pairs of the
    [EnumValue] children of the first group with that name, and later groups
    with the same name are dropped.  Where the [Key] attributes hold
    integers, the call returns when every [EnumValue] has a non-negative key
    and a non-empty value, and raises the missing-Key/Value exception when
    [Key] or [Value] is absent on an [EnumValue]. *)
Theorem enums_of_plain_groups xml document nodes :
  xml_parse (string_to_char_buffer xml) = Some document ->
  get_first_node document = Ok nodes ->
  Forall plain_group (enum_groups nodes) ->
  (forall m, get_enums xml_parse xml = Ok m ->
     (forall before group after nm,
         enum_groups nodes = before ++ group :: after ->
         find_attribute "Name" (attributes group) = Some nm ->
         (forall g, g ∈ before -> find_attribute "Name" (attributes g) <> Some nm) ->
         m !! nm = Some (map (attribute_pair "Key" "Value") (enum_values_of group)))
     /\ (forall nm values, m !! nm = Some values ->
           exists group, group ∈ enum_groups nodes
                         /\ find_attribute "Name" (attributes group) = Some nm))
  /\ (enum_keys_are_integers nodes ->
      ((forall group ev, group ∈ enum_groups nodes -> ev ∈ enum_values_of group ->
                         usable_pair (attribute_pair "Key" "Value" ev) = true) ->
       exists m, get_enums xml_parse xml = Ok m)
      /\ (forall group ev, group ∈ enum_groups nodes -> ev ∈ enum_values_of group ->
                           absent "Key" ev \/ absent "Value" ev ->
                           get_enums xml_parse xml = Throw (missing_enum_value "EnumValue"))).
Proof.
  intros Hparse Hfirst Hplain.
  rewrite (get_enums_parsed _ _ _ Hparse Hfirst). split.
  - intros m. rewrite get_enums_loop_flat, (get_enums_enum_node_loop_plain _ _ Hplain).
    intros Hscan. split.
    + intros before group after nm Hsplit Hname Hbefore.
      rewrite (scan_groups_lookup _ _ _ nm Hscan), lookup_empty, Hsplit.
      rewrite Hsplit in Hplain. apply Forall_app in Hplain as [Hpb Hpg].
      apply Forall_cons in Hpg as [Hpg _].
      apply first_group_first; [by apply plain_group_name|].
      intros g Hg Hgname. apply (Hbefore g Hg).
      rewrite Forall_forall in Hpb. by apply plain_group_name; [apply Hpb|].
    + intros nm values Hlookup.
      rewrite (scan_groups_lookup _ _ _ nm Hscan), lookup_empty in Hlookup.
      apply first_group_some in Hlookup as (g & Hg & Hname).
      exists g. split; [done|]. rewrite Forall_forall in Hplain.
      by apply plain_group_name; [apply Hplain|].
  - intros Hint. split.
    + intros Husable.
      rewrite get_enums_loop_flat, (get_enums_enum_node_loop_plain _ _ Hplain).
      apply scan_groups_ok. intros g Hg.
      rewrite get_enum_values_integers by (intros; by eapply Hint).
      destruct (forallb _ _) eqn:Hall; [done|].
      apply forallb_false_inv in Hall as (ev & Hev & Hfalse).
      by rewrite (Husable g ev Hg Hev) in Hfalse.
    + intros group ev Hgroup Hev Habsent.
      apply (get_enums_loop_unusable _ _ group ev); try done.
      * rewrite Forall_forall in Hplain. by destruct (Hplain group Hgroup) as [nm ->].
      * apply (unusable_attribute_pair "Key" "Value" ev).
        -- by eapply Hint.
        -- destruct Habsent; [by left|right; right; by left].
Qed.


End ParserContents.

(** ** The sample parser-contents documents *)

Ltac elem_cases H :=
  rewrite list_elem_of_In in H; vm_compute in H;
  repeat (destruct H as [<-|H]); try (by destruct H).

Ltac sample_keys_are_integers :=
  let group := fresh "group" in
  let ev := fresh "ev" in
  let Hgroup := fresh "Hgroup" in
  let Hev := fresh "Hev" in
  intros group ev Hgroup Hev;
  elem_cases Hgroup; elem_cases Hev;
  unfold integers; simpl; repeat constructor.

Lemma enums_of_plain_groups_witness :
  (exists m, get_enums Samples.parser Samples.enums_text = Ok m
             /\ m !! "Power" = Some [(1, "ON"); (0, "OFF")])
  /\ get_enums Samples.parser Samples.no_value_text = Throw (missing_enum_value "EnumValue").
Proof.
  split.
  - destruct (enums_of_plain_groups Samples.parser Samples.enums_text Samples.enums_document
                [element "Enums" [] [Samples.power_enum; Samples.mode_enum]])
      as [Hmap [Hreturns _]].
    + by vm_compute.
    + done.
    + repeat constructor; eexists; reflexivity.
    + sample_keys_are_integers.
    + destruct Hreturns as [m Hm].
      * intros group ev Hgroup Hev.
        elem_cases Hgroup; elem_cases Hev; by vm_compute.
      * exists m. split; [done|].
        destruct (Hmap m Hm) as [Hfirst _].
        rewrite (Hfirst [] Samples.power_enum [Samples.mode_enum] "Power").
        -- by vm_compute.
        -- done.
        -- done.
        -- intros g Hg. by apply elem_of_nil in Hg.
  - destruct (enums_of_plain_groups Samples.parser Samples.no_value_text Samples.no_value
                [element "Enums" [] [Samples.no_value_enum]])
      as [_ [_ Hfails]].
    + by vm_compute.
    + done.
    + repeat constructor; eexists; reflexivity.
    + sample_keys_are_integers.
    + apply (Hfails Samples.no_value_enum Samples.no_value_value).
      * by left.
      * by left.
      * by right.
Defined.

(** C2, as stated, is false: the second group named [Power] of the sample
    document does not appear in the map, which keeps the pairs of the
    first. *)
Lemma every_enum_child_once_refuted : ~ every_enum_child_once.
Proof.
  intros Hclaim.
  destruct (get_enums Samples.parser Samples.duplicate_enums_text) as [m| |] eqn:Hm;
    try (vm_compute in Hm; discriminate).
  assert (Hparse : Samples.parser (string_to_char_buffer Samples.duplicate_enums_text)
                   = Some Samples.duplicate_enums) by (by vm_compute).
  assert (Hsingular : forall n : xml_node, n ∈ [] ++ [] -> name n <> "Enums").
  { intros n Hn. by apply elem_of_nil in Hn. }
  destruct (Hclaim Samples.parser Samples.duplicate_enums_text Samples.duplicate_enums
              [element "Enums" [] [Samples.power_enum; Samples.other_power_enum]]
              [] (element "Enums" [] [Samples.power_enum; Samples.other_power_enum]) [] m
              Hparse eq_refl eq_refl eq_refl Hsingular Hm)
    as [Hchildren _].
  destruct (Hchildren Samples.other_power_enum) as (nm & Hname & Hlookup).
  - right. by left.
  - injection Hname as <-.
    assert (Hfirst : m !! "Power" = Some [(1, "ON"); (0, "OFF")]).
    { vm_compute in Hm. injection Hm as <-. reflexivity. }
    rewrite Hfirst in Hlookup. vm_compute in Hlookup. discriminate.
Qed.


(** * Further properties of the extractor *)

(** ** Integers read by [std::stoi] *)

Lemma stoi_digits_range negative s z :
  stoi_digits negative s = Ok z -> INT_MIN <= z <= INT_MAX.
Proof.
  destruct s as [|c s]; simpl; [done|].
  destruct (isdigit c); [|done].
  destruct (_ && _) eqn:Hrange; [|done].
  intros [= <-]. apply andb_true_iff in Hrange as [?%Z.leb_le ?%Z.leb_le]. done.
Qed.

Lemma stoi_range s z : stoi s = Ok z -> INT_MIN <= z <= INT_MAX.
Proof.
  unfold stoi.
  destruct (skip_spaces s) as [|[[] [] [] [] [] [] [] []] rest];
    cbv zeta; apply stoi_digits_range.
Qed.

Lemma stoi_digits_throws negative s e :
  stoi_digits negative s = Throw e -> e = invalid_argument \/ e = out_of_range.
Proof.
  destruct s as [|c s]; simpl; [intros [= <-]; by left|].
  destruct (isdigit c); [|intros [= <-]; by left].
  destruct (_ && _); [done|]. intros [= <-]. by right.
Qed.

Lemma stoi_throws s e : stoi s = Throw e -> e = invalid_argument \/ e = out_of_range.
Proof.
  unfold stoi.
  destruct (skip_spaces s) as [|[[] [] [] [] [] [] [] []] rest];
    cbv zeta; apply stoi_digits_throws.
Qed.

Lemma get_id_attribute_range node k : get_id_attribute node = Ok k -> INT_MIN <= k <= INT_MAX.
Proof.
  unfold get_id_attribute. destruct (find_attribute "id" (attributes node)); [|done].
  apply stoi_range.
Qed.

Lemma read_pair_range integer_key text_key attrs n text n' text' :
  read_pair integer_key text_key attrs n text = Ok (n', text') ->
  n' = n \/ INT_MIN <= n' <= INT_MAX.
Proof.
  revert n text; induction attrs as [|a attrs IH]; intros n text; simpl.
  - intros [= <- <-]. by left.
  - case_tag; [|case_tag; apply IH].
    destruct (stoi (attr_value a)) as [z| |] eqn:Hz; simpl; try done.
    intros [->|Hrange]%IH; right; [by apply (stoi_range (attr_value a))|done].
Qed.

Lemma get_event_data_valid node data : get_event_data node = Ok data -> valid_pair data.
Proof.
  unfold get_event_data. rewrite get_event_data_loop_read.
  destruct (read_pair _ _ _ _ _) as [[n f]| |] eqn:Hread; simpl; try done.
  destruct (n <? 0) eqn:Hn; simpl; [done|].
  destruct (string_empty f) eqn:Hf; simpl; [done|].
  intros [= <-]. apply Z.ltb_ge in Hn.
  apply read_pair_range in Hread as [->|Hrange]; [lia|].
  split; simpl; [lia|]. intros ->. done.
Qed.

(** ** The scan once more: keys, filtering, invariants *)

Section ScanFacts.
Context {V : Type}.
Variable tag : string.
Variable value_of : xml_node -> outcome V.

Lemma scan_insert_filter nodes (m : gmap Z V) :
  scan_insert tag value_of nodes m
  = scan_insert tag value_of (List.filter (has_tag tag) nodes) m.
Proof.
  revert m; induction nodes as [|node nodes IH]; intros m; [done|].
  cbn [List.filter scan_insert]. unfold has_tag at 1.
  destruct (String.eqb_spec (name node) tag) as [Htag|Htag]; [|apply IH].
  cbn [scan_insert]. apply String.eqb_eq in Htag as ->.
  destruct (get_id_attribute node); simpl; try done.
  destruct (value_of node); simpl; try done.
Qed.

Lemma first_entry_is_some nodes node k :
  Forall (entry_ok tag value_of) nodes ->
  node ∈ nodes -> name node = tag -> get_id_attribute node = Ok k ->
  is_Some (first_entry tag value_of k nodes).
Proof.
  intros Hall (l1 & l2 & ->)%list_elem_of_split Htag Hid.
  apply Forall_app in Hall as [_ Hall]. apply Forall_cons in Hall as [Hok _].
  destruct (Hok Htag) as [_ [v Hv]%is_ok_true].
  rewrite (first_entry_app tag value_of l1 (node :: l2) k).
  destruct (first_entry tag value_of k l1); [done|].
  by rewrite (first_entry_here _ _ _ _ _ _ Htag Hid Hv).
Qed.

Lemma scan_insert_keys nodes (m : gmap Z V) k :
  scan_insert tag value_of nodes ∅ = Ok m ->
  is_Some (m !! k)
  <-> exists node, node ∈ nodes /\ name node = tag /\ get_id_attribute node = Ok k.
Proof.
  intros Hscan. rewrite (scan_insert_lookup _ _ _ _ _ k Hscan), lookup_empty. split.
  - intros [v (node & ? & ? & ? & _)%first_entry_some]. by exists node.
  - intros (node & Hin & Htag & Hid).
    eapply first_entry_is_some; [|done..]. by eapply scan_insert_ok_inv.
Qed.

Lemma scan_insert_entries (P : Z -> V -> Prop) nodes (m : gmap Z V) :
  (forall node k v, get_id_attribute node = Ok k -> value_of node = Ok v -> P k v) ->
  scan_insert tag value_of nodes ∅ = Ok m ->
  forall k v, m !! k = Some v -> P k v.
Proof.
  intros HP Hscan k v Hk.
  rewrite (scan_insert_lookup _ _ _ _ _ k Hscan), lookup_empty in Hk.
  apply first_entry_some in Hk as (node & _ & _ & Hid & Hv). by eapply HP.
Qed.

Lemma scan_insert_ok_iff nodes :
  is_ok (scan_insert tag value_of nodes ∅) = true <-> Forall (entry_ok tag value_of) nodes.
Proof.
  split.
  - intros [m Hm]%is_ok_true. by eapply scan_insert_ok_inv.
  - intros Hall. apply is_ok_true. by apply scan_insert_ok.
Qed.
End ScanFacts.

Section TableFacts.
Variable xml_parse : list ascii -> option xml_document.

(** X1. A document whose root is not tagged [Format] is rejected by every
    entry point with the same exception, whatever the root holds. *)
Theorem root_must_be_format xml root rest source_id :
  xml_parse (string_to_char_buffer xml) = Some (root :: rest) ->
  name root <> "Format" ->
  get_source_parser_file_path xml_parse source_id xml = Throw root_not_format
  /\ get_source_module_verbosity xml_parse source_id xml = Throw root_not_format
  /\ get_events xml_parse xml = Throw root_not_format
  /\ get_files xml_parse xml = Throw root_not_format
  /\ get_modules xml_parse xml = Throw root_not_format
  /\ get_threads xml_parse xml = Throw root_not_format
  /\ get_enums xml_parse xml = Throw root_not_format.
Proof.
  intros Hparse Hroot.
  unfold get_source_parser_file_path, get_source_module_verbosity, get_events,
    get_files, get_modules, get_threads, get_id_to_names, get_enums, get_source_node.
  rewrite (load_external_xml_parsed _ _ _ Hparse). simpl.
  by apply String.eqb_neq in Hroot as ->.
Qed.

(** X2. The emptiness check of [load_external_xml] never fires, whatever
    the text: no entry point raises "Empty XML content", and a text that the
    parser rejects surfaces as the parser's own exception. *)
Theorem empty_content_check_never_fires xml source_id :
  get_source_parser_file_path xml_parse source_id xml <> Throw empty_xml_content
  /\ get_source_module_verbosity xml_parse source_id xml <> Throw empty_xml_content
  /\ get_events xml_parse xml <> Throw empty_xml_content
  /\ get_files xml_parse xml <> Throw empty_xml_content
  /\ get_modules xml_parse xml <> Throw empty_xml_content
  /\ get_threads xml_parse xml <> Throw empty_xml_content
  /\ get_enums xml_parse xml <> Throw empty_xml_content
  /\ (xml_parse (string_to_char_buffer xml) = None ->
      get_source_parser_file_path xml_parse source_id xml = Throw parse_error
      /\ get_source_module_verbosity xml_parse source_id xml = Throw parse_error
      /\ get_events xml_parse xml = Throw parse_error
      /\ get_files xml_parse xml = Throw parse_error
      /\ get_modules xml_parse xml = Throw parse_error
      /\ get_threads xml_parse xml = Throw parse_error
      /\ get_enums xml_parse xml = Throw parse_error).
Proof.
  destruct (entry_points_never_reject_empty xml_parse xml source_id "File") as (? & ? & ? & ? & ?).
  destruct (entry_points_never_reject_empty xml_parse xml source_id "Module") as (_ & _ & _ & ? & _).
  destruct (entry_points_never_reject_empty xml_parse xml source_id "Thread") as (_ & _ & _ & ? & _).
  repeat (split; [done|]).
  intros Hparse.
  unfold get_source_parser_file_path, get_source_module_verbosity, get_events,
    get_files, get_modules, get_threads, get_id_to_names, get_enums.
  rewrite load_external_xml_parses, Hparse. done.
Qed.

(** X3. The keys of a returned table are exactly the ids of the nodes
    with the table's tag: [Event] for [get_events], the given tag for
    [get_id_to_names]. *)
Theorem table_keys_are_node_ids xml document nodes :
  xml_parse (string_to_char_buffer xml) = Some document ->
  get_first_node document = Ok nodes ->
  (forall m k, get_events xml_parse xml = Ok m ->
     (is_Some (m !! k)
      <-> exists node, node ∈ nodes /\ name node = "Event" /\ get_id_attribute node = Ok k))
  /\ (forall tag m k, get_id_to_names xml_parse xml tag = Ok m ->
     (is_Some (m !! k)
      <-> exists node, node ∈ nodes /\ name node = tag /\ get_id_attribute node = Ok k)).
Proof.
  intros Hparse Hfirst. split.
  - intros m k. rewrite (get_events_parsed _ _ _ _ Hparse Hfirst). apply scan_insert_keys.
  - intros tag m k. rewrite (get_id_to_names_parsed _ _ _ _ _ Hparse Hfirst).
    apply scan_insert_keys.
Qed.

(** X4. Every entry of a table returned by [get_events] has an id in the
    range of [int], a non-negative argument count in that range and a
    non-empty format. *)
Theorem events_table_entries_valid xml m k num_of_args format :
  get_events xml_parse xml = Ok m ->
  m !! k = Some (num_of_args, format) ->
  INT_MIN <= k <= INT_MAX /\ 0 <= num_of_args <= INT_MAX /\ format <> "".
Proof.
  unfold get_events. intros (document & _ & (nodes & _ & Hloop)%bind_ok)%bind_ok Hk.
  rewrite get_events_loop_scan in Hloop.
  apply (scan_insert_entries "Event" get_event_data
           (fun k data => INT_MIN <= k <= INT_MAX /\ valid_pair data) nodes m)
    in Hk as [Hrange [Hn Hf]]; [done| |done].
  intros node k' data Hid Hdata. split.
  - by apply (get_id_attribute_range node).
  - by apply (get_event_data_valid node).
Qed.

(** X5. Nodes with another tag are not inspected: two documents whose
    top-level nodes with the tag are the same, in the same order, give the
    same table, or the same exception. *)
Theorem other_tags_not_inspected xml xml' document document' nodes nodes' tag :
  xml_parse (string_to_char_buffer xml) = Some document ->
  get_first_node document = Ok nodes ->
  xml_parse (string_to_char_buffer xml') = Some document' ->
  get_first_node document' = Ok nodes' ->
  List.filter (has_tag tag) nodes = List.filter (has_tag tag) nodes' ->
  get_id_to_names xml_parse xml tag = get_id_to_names xml_parse xml' tag
  /\ (tag = "Event" -> get_events xml_parse xml = get_events xml_parse xml').
Proof.
  intros Hparse Hfirst Hparse' Hfirst' Hsame. split.
  - rewrite (get_id_to_names_parsed _ _ _ _ _ Hparse Hfirst),
      (get_id_to_names_parsed _ _ _ _ _ Hparse' Hfirst').
    by rewrite scan_insert_filter, Hsame, <- scan_insert_filter.
  - intros ->.
    rewrite (get_events_parsed _ _ _ _ Hparse Hfirst),
      (get_events_parsed _ _ _ _ Hparse' Hfirst').
    by rewrite scan_insert_filter, Hsame, <- scan_insert_filter.
Qed.

(** X6. A table is returned exactly when every node with the table's tag
    can be read: [get_events] when each [Event] has an integer id and usable
    data, [get_id_to_names] when each node with the tag has an integer id
    and a [Name]. *)
Theorem table_returned_iff_nodes_readable xml document nodes :
  xml_parse (string_to_char_buffer xml) = Some document ->
  get_first_node document = Ok nodes ->
  (is_ok (get_events xml_parse xml) = true
   <-> forall node, node ∈ nodes -> name node = "Event" ->
         is_ok (get_id_attribute node) = true /\ is_ok (get_event_data node) = true)
  /\ (forall tag,
       is_ok (get_id_to_names xml_parse xml tag) = true
       <-> forall node, node ∈ nodes -> name node = tag ->
             is_ok (get_id_attribute node) = true /\ is_ok (get_name_attribute node) = true).
Proof.
  intros Hparse Hfirst. split.
  - rewrite (get_events_parsed _ _ _ _ Hparse Hfirst), scan_insert_ok_iff.
    by rewrite Forall_forall.
  - intros tag. rewrite (get_id_to_names_parsed _ _ _ _ _ Hparse Hfirst), scan_insert_ok_iff.
    by rewrite Forall_forall.
Qed.

(** X7. The first unreadable node decides the exception of
    [get_id_to_names]: without [id] it is the missing-[id] exception, also
    when [Name] is missing too; with an integer [id] and without [Name] it
    is the missing-[Name] exception; either names the tag. *)
Theorem name_table_missing_attribute xml document pre node post tag :
  xml_parse (string_to_char_buffer xml) = Some document ->
  get_first_node document = Ok (pre ++ node :: post) ->
  (forall n, n ∈ pre -> name n = tag ->
     is_ok (get_id_attribute n) = true /\ is_ok (get_name_attribute n) = true) ->
  name node = tag ->
  find_attribute "id" (attributes node) = None
  \/ (is_ok (get_id_attribute node) = true
      /\ find_attribute "Name" (attributes node) = None) ->
  get_id_to_names xml_parse xml tag =
    Throw (missing_attribute
             (match find_attribute "id" (attributes node) with
              | None => "id"
              | Some _ => "Name"
              end) tag).
Proof.
  intros Hparse Hfirst Hpre Htag Hbad.
  rewrite (get_id_to_names_parsed _ _ _ _ _ Hparse Hfirst).
  destruct (scan_insert_ok tag get_name_attribute pre ∅) as [m1 Hm1].
  { by apply Forall_forall. }
  apply (scan_insert_raises _ _ _ _ _ _ m1); [done..|].
  unfold get_id_attribute, get_name_attribute in *.
  destruct Hbad as [Hid|[[k Hid]%is_ok_true Hname]].
  - by rewrite Hid, Htag.
  - destruct (find_attribute "id" (attributes node)); [|done].
    rewrite Hid, Hname, Htag. done.
Qed.

(** X8. An [id] that [std::stoi] cannot convert is not reported as a
    missing attribute: the exception of [std::stoi], [std::invalid_argument]
    or [std::out_of_range], leaves [get_id_to_names] and [get_events]
    unchanged. *)
Theorem unconvertible_id_exception xml document pre node post tag s e :
  xml_parse (string_to_char_buffer xml) = Some document ->
  get_first_node document = Ok (pre ++ node :: post) ->
  name node = tag ->
  find_attribute "id" (attributes node) = Some s ->
  stoi s = Throw e ->
  (e = invalid_argument \/ e = out_of_range)
  /\ (Forall (entry_ok tag get_name_attribute) pre ->
      get_id_to_names xml_parse xml tag = Throw e)
  /\ (tag = "Event" -> Forall (entry_ok "Event" get_event_data) pre ->
      get_events xml_parse xml = Throw e).
Proof.
  intros Hparse Hfirst Htag Hs He.
  assert (Hid : get_id_attribute node = Throw e).
  { unfold get_id_attribute. by rewrite Hs. }
  split; [by apply (stoi_throws s)|]. split.
  - intros Hpre. rewrite (get_id_to_names_parsed _ _ _ _ _ Hparse Hfirst).
    destruct (scan_insert_ok tag get_name_attribute pre ∅ Hpre) as [m1 Hm1].
    apply (scan_insert_raises _ _ _ _ _ _ m1); [done..|]. by rewrite Hid.
  - intros -> Hpre. rewrite (get_events_parsed _ _ _ _ Hparse Hfirst).
    destruct (scan_insert_ok "Event" get_event_data pre ∅ Hpre) as [m1 Hm1].
    apply (scan_insert_raises _ _ _ _ _ _ m1); [done..|]. by rewrite Hid.
Qed.

End TableFacts.

(** ** Sources once more *)

Lemma get_file_path_loop_filter nodes :
  get_file_path_loop nodes = get_file_path_loop (List.filter (has_tag "File") nodes).
Proof.
  induction nodes as [|node nodes IH]; [done|].
  cbn [List.filter get_file_path_loop]. unfold has_tag at 1.
  destruct (String.eqb_spec (name node) "File") as [Htag|Htag]; [|apply IH].
  cbn [get_file_path_loop]. apply String.eqb_eq in Htag as ->. by rewrite IH.
Qed.

Section SourceFacts.
Variable xml_parse : list ascii -> option xml_document.

(** X9. The search stops at the first [Source] with the requested id:
    what follows it, be it a second [Source] with the same id or a node
    that cannot be read, has no effect on either call. *)
Theorem nothing_after_matching_source_is_read
    xml xml' document document' pre source rest rest' source_id :
  xml_parse (string_to_char_buffer xml) = Some document ->
  get_first_node document = Ok (pre ++ source :: rest) ->
  xml_parse (string_to_char_buffer xml') = Some document' ->
  get_first_node document' = Ok (pre ++ source :: rest') ->
  Forall (other_source source_id) pre ->
  name source = "Source" -> get_id_attribute source = Ok source_id ->
  get_source_module_verbosity xml_parse source_id xml
  = get_source_module_verbosity xml_parse source_id xml'
  /\ get_source_parser_file_path xml_parse source_id xml
     = get_source_parser_file_path xml_parse source_id xml'.
Proof.
  intros Hparse Hfirst Hparse' Hfirst' Hpre Htag Hid.
  rewrite !(get_source_module_verbosity_parsed _ _ _ _ Hparse),
    !(get_source_module_verbosity_parsed _ _ _ _ Hparse'),
    !(get_source_parser_file_path_parsed _ _ _ _ Hparse),
    !(get_source_parser_file_path_parsed _ _ _ _ Hparse').
  unfold get_source_node. rewrite Hfirst, Hfirst'. simpl.
  by rewrite !(get_source_node_loop_found _ _ _ _ Hpre Htag Hid).
Qed.

(** X10. Each call reads its own children of the source: the module
    verbosities depend on the [Module] children only, the parser file on
    the [File] children only. *)
Theorem source_calls_read_their_own_children
    xml xml' document document' source source' source_id :
  xml_parse (string_to_char_buffer xml) = Some document ->
  get_source_node source_id document = Ok source ->
  xml_parse (string_to_char_buffer xml') = Some document' ->
  get_source_node source_id document' = Ok source' ->
  (List.filter (has_tag "Module") (children source)
   = List.filter (has_tag "Module") (children source') ->
   get_source_module_verbosity xml_parse source_id xml
   = get_source_module_verbosity xml_parse source_id xml')
  /\ (List.filter (has_tag "File") (children source)
      = List.filter (has_tag "File") (children source') ->
      get_source_parser_file_path xml_parse source_id xml
      = get_source_parser_file_path xml_parse source_id xml').
Proof.
  intros Hparse Hsource Hparse' Hsource'. split; intros Hsame.
  - rewrite (get_source_module_verbosity_parsed _ _ _ _ Hparse),
      (get_source_module_verbosity_parsed _ _ _ _ Hparse'), Hsource, Hsource'. simpl.
    by rewrite scan_insert_filter, Hsame, <- scan_insert_filter.
  - rewrite (get_source_parser_file_path_parsed _ _ _ _ Hparse),
      (get_source_parser_file_path_parsed _ _ _ _ Hparse'), Hsource, Hsource'. simpl.
    unfold get_file_path.
    by rewrite (get_file_path_loop_filter (children source)), Hsame,
         <- get_file_path_loop_filter.
Qed.

(** X11. Of several [Module] children of a source with one id, the first
    decides the verbosity stored for that id. *)
Theorem first_module_verbosity_wins xml source_id document source pre module rest k m :
  xml_parse (string_to_char_buffer xml) = Some document ->
  get_source_node source_id document = Ok source ->
  children source = pre ++ module :: rest ->
  name module = "Module" -> get_id_attribute module = Ok k ->
  (forall n, n ∈ pre -> name n = "Module" -> get_id_attribute n <> Ok k) ->
  get_source_module_verbosity xml_parse source_id xml = Ok m ->
  exists verbosity, get_verbosity_attribute module = Ok verbosity /\ m !! k = Some verbosity.
Proof.
  intros Hparse Hsource Hchildren Htag Hid Hpre.
  rewrite (get_source_module_verbosity_parsed _ _ _ _ Hparse), Hsource. simpl.
  rewrite Hchildren. by apply scan_insert_first_wins.
Qed.

(** X12. [get_source_module_verbosity] on a document without a [Source]
    of the requested id, all [Source] nodes having integer ids, raises the
    not-found exception, whose text ends with the id in decimal. *)
Theorem module_verbosity_source_not_found xml document nodes source_id :
  xml_parse (string_to_char_buffer xml) = Some document ->
  get_first_node document = Ok nodes ->
  Forall (other_source source_id) nodes ->
  get_source_module_verbosity xml_parse source_id xml
  = Throw (invalid_value_exception
             ("Did not find 'Source' node with id " +:+ pretty source_id)).
Proof.
  intros Hparse Hfirst Hall.
  rewrite (get_source_module_verbosity_parsed _ _ _ _ Hparse).
  unfold get_source_node. rewrite Hfirst. simpl.
  by rewrite (get_source_node_loop_not_found _ _ Hall).
Qed.

End SourceFacts.

(** ** Events and enum values once more *)

Lemma read_pair_integers integer_key text_key attrs n text p :
  read_pair integer_key text_key attrs n text = Ok p ->
  Forall (fun s => is_ok (stoi s) = true) (attribute_values integer_key attrs).
Proof.
  revert n text; induction attrs as [|a attrs IH]; intros n text; simpl; [by constructor|].
  case_tag; [|case_tag; apply IH].
  destruct (stoi (attr_value a)) as [z| |] eqn:Hz; simpl; try done.
  intros Hrest%IH. constructor; [by rewrite Hz|done].
Qed.

(** The integer of a readable pair that is not the initial -1 is the
    conversion of the last attribute with the integer name. *)
Lemma read_pair_last integer_key text_key attrs text n text' :
  integer_key <> text_key ->
  read_pair integer_key text_key attrs (-1) text = Ok (n, text') ->
  0 <= n ->
  exists s, last (attribute_values integer_key attrs) = Some s /\ stoi s = Ok n.
Proof.
  intros Hkeys Hread Hn.
  pose proof (read_pair_integers _ _ _ _ _ _ Hread) as Hint.
  apply read_pair_ok_inv in Hread as [-> _]; [|done].
  destruct (last (attribute_values integer_key attrs)) as [s|] eqn:Hlast.
  - exists s. split; [done|].
    assert (Hs : is_ok (stoi s) = true).
    { rewrite Forall_forall in Hint. apply Hint.
      apply last_Some in Hlast as [init ->]. apply elem_of_app. right. by left. }
    apply is_ok_true in Hs as [z Hz]. by rewrite (last_integer_last _ _ _ _ Hlast Hz).
  - apply last_None in Hlast. rewrite Hlast in Hn. simpl in Hn. lia.
Qed.

(** X13. Of repeated attributes of an [Event], [get_event_data] uses the
    last [numberOfArguments] and the concatenation, in document order, of
    the [format] values. *)
Theorem get_event_data_reads_last_and_concatenates node num_of_args format :
  get_event_data node = Ok (num_of_args, format) ->
  (exists s, last (attribute_values "numberOfArguments" (attributes node)) = Some s
             /\ stoi s = Ok num_of_args)
  /\ format = concat_values (attribute_values "format" (attributes node)).
Proof.
  unfold get_event_data. rewrite get_event_data_loop_read.
  destruct (read_pair _ _ _ _ _) as [[n f]| |] eqn:Hread; simpl; try done.
  destruct (n <? 0) eqn:Hn; simpl; [done|].
  destruct (string_empty f); simpl; [done|].
  intros [= <- <-]. apply Z.ltb_ge in Hn. split.
  - apply (read_pair_last "numberOfArguments" "format" _ "" n f); [done|exact Hread|exact Hn].
  - apply read_pair_ok_inv in Hread as [_ ->]; done.
Qed.

Lemma get_enum_values_loop_reads nodes values result :
  get_enum_values_loop nodes values = Ok result ->
  exists news, result = values ++ news
               /\ Forall2 enum_value_read (List.filter (has_tag "EnumValue") nodes) news.
Proof.
  revert values; induction nodes as [|node nodes IH]; intros values.
  - intros [= <-]. exists []. by rewrite app_nil_r.
  - cbn [get_enum_values_loop List.filter]. unfold has_tag at 1.
    destruct (String.eqb_spec (name node) "EnumValue") as [Htag|Htag]; [|apply IH].
    rewrite enum_value_attributes_read.
    destruct (read_pair "Key" "Value" (attributes node) (-1) "") as [[k v]| |] eqn:Hread;
      simpl; try done.
    destruct (k <? 0) eqn:Hk; simpl; [done|].
    destruct (string_empty v) eqn:Hv; simpl; [done|].
    intros (news & -> & Hnews)%IH. exists ((k, v) :: news).
    split; [by rewrite <- app_assoc|]. constructor; [|done].
    apply Z.ltb_ge in Hk.
    split; [|split].
    + by apply (read_pair_last "Key" "Value" _ "" k v).
    + by apply read_pair_ok_inv in Hread as [_ ->].
    + split; simpl.
      * apply read_pair_range in Hread as [->|?]; lia.
      * intros ->. done.
Qed.

Lemma get_enum_values_valid group values :
  get_enum_values group = Ok values -> Forall valid_pair values.
Proof.
  intros (news & -> & Hnews)%get_enum_values_loop_reads. simpl.
  induction Hnews as [|ev p evs ps (_ & _ & Hp) _ IH]; by constructor.
Qed.

(** X14. [get_enum_values] returns one pair per [EnumValue] child, in
    document order, pairs with equal keys included; other children are
    passed over; each pair holds the conversion of the last [Key], a
    non-negative [int], and the concatenation of the [Value]s, which is not
    empty. *)
Theorem get_enum_values_in_document_order group values :
  get_enum_values group = Ok values ->
  Forall2 enum_value_read (List.filter (has_tag "EnumValue") (children group)) values
  /\ length values = length (List.filter (has_tag "EnumValue") (children group)).
Proof.
  intros (news & -> & Hnews)%get_enum_values_loop_reads. simpl.
  split; [done|]. symmetry. by eapply Forall2_length.
Qed.

(** ** [get_enums] once more *)

Lemma get_enums_enum_node_loop_filter groups m :
  get_enums_enum_node_loop groups m
  = get_enums_enum_node_loop (List.filter has_attributes groups) m.
Proof.
  revert m; induction groups as [|g groups IH]; intros m; [done|].
  cbn [List.filter get_enums_enum_node_loop]. unfold has_attributes at 1.
  destruct (attributes g) as [|a attrs] eqn:Hattrs.
  - simpl. apply IH.
  - cbn [get_enums_enum_node_loop]. rewrite Hattrs.
    destruct (get_enums_attribute_loop g (a :: attrs) m); simpl; try done.
Qed.

Lemma get_enums_attribute_loop_origin group attrs m m' nm values :
  get_enums_attribute_loop group attrs m = Ok m' ->
  m' !! nm = Some values ->
  m !! nm = Some values
  \/ exists a, a ∈ attrs /\ enum_name_of a = nm /\ get_enum_values group = Ok values.
Proof.
  revert m; induction attrs as [|a attrs IH]; intros m; simpl.
  - intros [= ->] ?. by left.
  - destruct (get_enum_values group) as [vs| |] eqn:Hvs; simpl; try done.
    intros Hloop Hnm. destruct (IH _ Hloop Hnm) as [Hm|(a' & Ha' & ? & ?)].
    + fold (enum_name_of a) in Hm. rewrite lookup_unordered_map_insert in Hm.
      destruct (m !! nm) as [w|]; [by left|].
      case_decide as Hname; [|done]. injection Hm as <-.
      right. exists a. split; [by left|done].
    + right. exists a'. split; [by right|done].
Qed.

Lemma get_enums_attribute_loop_present group attrs m m' nm :
  get_enums_attribute_loop group attrs m = Ok m' ->
  is_Some (m !! nm) \/ (exists a, a ∈ attrs /\ enum_name_of a = nm) ->
  is_Some (m' !! nm).
Proof.
  revert m; induction attrs as [|a attrs IH]; intros m; simpl.
  - intros [= ->] [?|(a & Ha & _)]; [done|by apply elem_of_nil in Ha].
  - destruct (get_enum_values group) as [vs| |] eqn:Hvs; simpl; try done.
    intros Hloop Hnm. apply (IH _ Hloop).
    fold (enum_name_of a). rewrite lookup_unordered_map_insert.
    destruct Hnm as [[w Hw]|(a' & [->|Ha']%elem_of_cons & Hname)].
    + left. by rewrite Hw.
    + left. destruct (m !! nm); [done|]. by rewrite decide_True.
    + right. by exists a'.
Qed.

Lemma get_enums_enum_node_loop_origin groups m m' nm values :
  get_enums_enum_node_loop groups m = Ok m' ->
  m' !! nm = Some values ->
  m !! nm = Some values
  \/ exists group a, group ∈ groups /\ a ∈ attributes group
                     /\ enum_name_of a = nm /\ get_enum_values group = Ok values.
Proof.
  revert m; induction groups as [|g groups IH]; intros m; simpl.
  - intros [= ->] ?. by left.
  - destruct (get_enums_attribute_loop g (attributes g) m) as [m1| |] eqn:Hg; simpl; try done.
    intros Hloop Hnm. destruct (IH _ Hloop Hnm) as [Hm1|(g' & a & Hg' & ?)].
    + destruct (get_enums_attribute_loop_origin _ _ _ _ _ _ Hg Hm1) as [?|(a & ? & ? & ?)];
        [by left|].
      right. exists g, a. split; [by left|done].
    + right. exists g', a. split; [by right|done].
Qed.

Lemma get_enums_enum_node_loop_present groups m m' nm :
  get_enums_enum_node_loop groups m = Ok m' ->
  is_Some (m !! nm)
  \/ (exists group a, group ∈ groups /\ a ∈ attributes group /\ enum_name_of a = nm) ->
  is_Some (m' !! nm).
Proof.
  revert m; induction groups as [|g groups IH]; intros m; simpl.
  - intros [= ->] [?|(g & a & Hg & _)]; [done|by apply elem_of_nil in Hg].
  - destruct (get_enums_attribute_loop g (attributes g) m) as [m1| |] eqn:Hg; simpl; try done.
    intros Hloop Hnm. apply (IH _ Hloop).
    destruct Hnm as [Hm|(g' & a & [->|Hg']%elem_of_cons & Ha & Hname)].
    + left. apply (get_enums_attribute_loop_present _ _ _ _ _ Hg). by left.
    + left. apply (get_enums_attribute_loop_present _ _ _ _ _ Hg). right. by exists a.
    + right. by exists g', a.
Qed.

Section EnumFacts.
Variable xml_parse : list ascii -> option xml_document.

(** X15. [get_enums] reads the enum groups that carry an attribute, and
    nothing else: several [Enums] nodes count as one, other top-level nodes
    are passed over, and a group without attributes is neither stored nor
    checked. *)
Theorem enums_read_groups_with_attributes xml xml' document document' nodes nodes' :
  xml_parse (string_to_char_buffer xml) = Some document ->
  get_first_node document = Ok nodes ->
  xml_parse (string_to_char_buffer xml') = Some document' ->
  get_first_node document' = Ok nodes' ->
  List.filter has_attributes (enum_groups nodes)
  = List.filter has_attributes (enum_groups nodes') ->
  get_enums xml_parse xml = get_enums xml_parse xml'.
Proof.
  intros Hparse Hfirst Hparse' Hfirst' Hsame.
  rewrite (get_enums_parsed _ _ _ _ Hparse Hfirst), (get_enums_parsed _ _ _ _ Hparse' Hfirst').
  rewrite !get_enums_loop_flat.
  by rewrite get_enums_enum_node_loop_filter, Hsame, <- get_enums_enum_node_loop_filter.
Qed.

(** X16. The keys of a map returned by [get_enums] come from the
    attributes of the enum groups, one key per attribute: the value of a
    [Name] attribute, and the empty string for an attribute with another
    name.  The list stored under a key is what [get_enum_values] returns
    for a group with such an attribute. *)
Theorem enums_table_keys xml document nodes m :
  xml_parse (string_to_char_buffer xml) = Some document ->
  get_first_node document = Ok nodes ->
  get_enums xml_parse xml = Ok m ->
  (forall nm, is_Some (m !! nm)
              <-> exists group a, group ∈ enum_groups nodes /\ a ∈ attributes group
                                  /\ enum_name_of a = nm)
  /\ (forall nm values, m !! nm = Some values ->
        exists group a, group ∈ enum_groups nodes /\ a ∈ attributes group
                        /\ enum_name_of a = nm /\ get_enum_values group = Ok values).
Proof.
  intros Hparse Hfirst.
  rewrite (get_enums_parsed _ _ _ _ Hparse Hfirst), get_enums_loop_flat. intros Hloop.
  assert (Horigin : forall nm values, m !! nm = Some values ->
            exists group a, group ∈ enum_groups nodes /\ a ∈ attributes group
                            /\ enum_name_of a = nm /\ get_enum_values group = Ok values).
  { intros nm values Hnm.
    destruct (get_enums_enum_node_loop_origin _ _ _ _ _ Hloop Hnm) as [Hempty|?]; [|done].
    by rewrite lookup_empty in Hempty. }
  split; [|done]. intros nm. split.
  - intros [values (group & a & ? & ? & ? & _)%Horigin]. by exists group, a.
  - intros Hattr. apply (get_enums_enum_node_loop_present _ _ _ _ Hloop). by right.
Qed.

(** X17. Every pair of every list of a map returned by [get_enums] has a
    key that is a non-negative [int] and a value that is not empty. *)
Theorem enums_table_pairs_valid xml m nm values :
  get_enums xml_parse xml = Ok m ->
  m !! nm = Some values ->
  Forall valid_pair values.
Proof.
  unfold get_enums. intros (document & _ & (nodes & _ & Hloop)%bind_ok)%bind_ok Hnm.
  rewrite get_enums_loop_flat in Hloop.
  destruct (get_enums_enum_node_loop_origin _ _ _ _ _ Hloop Hnm)
    as [Hempty|(group & a & _ & _ & _ & Hvalues)].
  - by rewrite lookup_empty in Hempty.
  - apply get_enum_values_valid in Hvalues. done.
Qed.

End EnumFacts.

(** ** The further properties on the sample documents *)

Lemma root_must_be_format_witness :
  get_events MoreSamples.parser MoreSamples.wrong_root_text = Throw root_not_format
  /\ get_enums MoreSamples.parser MoreSamples.wrong_root_text = Throw root_not_format.
Proof.
  destruct (root_must_be_format MoreSamples.parser MoreSamples.wrong_root_text
              (element "Formats" [] [Samples.first_event]) [] 0)
    as (_ & _ & Hevents & _ & _ & _ & Henums).
  - by vm_compute.
  - done.
  - done.
Defined.

Lemma empty_content_check_never_fires_witness :
  get_events MoreSamples.parser "<Format>" = Throw parse_error.
Proof.
  destruct (empty_content_check_never_fires MoreSamples.parser "<Format>" 0)
    as (_ & _ & _ & _ & _ & _ & _ & Hrejected).
  destruct Hrejected as (_ & _ & Hevents & _); [by vm_compute|done].
Defined.

Lemma table_keys_are_node_ids_witness :
  exists m, get_files MoreSamples.parser MoreSamples.mixed_text = Ok m /\ is_Some (m !! 2).
Proof.
  destruct (table_keys_are_node_ids MoreSamples.parser MoreSamples.mixed_text
              MoreSamples.mixed MoreSamples.mixed_nodes) as [_ Hnames].
  - by vm_compute.
  - done.
  - destruct (get_files MoreSamples.parser MoreSamples.mixed_text) as [m| |] eqn:Hm;
      try (vm_compute in Hm; discriminate).
    exists m. split; [done|].
    apply (Hnames "File" m 2 Hm).
    exists (element "File" [("id", "2"); ("Name", "util.c")] []).
    split; [|by vm_compute]. do 3 right. by left.
Defined.

Lemma events_table_entries_valid_witness :
  INT_MIN <= 1 <= INT_MAX /\ 0 <= 1 <= INT_MAX /\ "first {0}" <> "".
Proof.
  apply (events_table_entries_valid Samples.parser Samples.duplicates_text
           {[ 1 := (1, "first {0}") ]} 1 1 "first {0}").
  - by vm_compute.
  - by vm_compute.
Defined.

Lemma other_tags_not_inspected_witness :
  get_id_to_names MoreSamples.parser MoreSamples.mixed_text "File"
  = get_id_to_names MoreSamples.parser MoreSamples.files_only_text "File".
Proof.
  apply (other_tags_not_inspected MoreSamples.parser
           MoreSamples.mixed_text MoreSamples.files_only_text
           MoreSamples.mixed MoreSamples.files_only
           MoreSamples.mixed_nodes MoreSamples.files_only_nodes "File").
  - by vm_compute.
  - done.
  - by vm_compute.
  - done.
  - by vm_compute.
Defined.

Lemma table_returned_iff_nodes_readable_witness :
  is_ok (get_id_to_names MoreSamples.parser MoreSamples.mixed_text "File") = true.
Proof.
  destruct (table_returned_iff_nodes_readable MoreSamples.parser MoreSamples.mixed_text
              MoreSamples.mixed MoreSamples.mixed_nodes) as [_ Hnames].
  - by vm_compute.
  - done.
  - apply Hnames. intros node Hnode Htag.
    elem_cases Hnode; try discriminate Htag; by vm_compute.
Defined.

Lemma name_table_missing_attribute_witness :
  get_id_to_names MoreSamples.parser MoreSamples.mixed_text "Thread"
  = Throw (missing_attribute "Name" "Thread").
Proof.
  apply (name_table_missing_attribute MoreSamples.parser MoreSamples.mixed_text
           MoreSamples.mixed [Samples.a_file; MoreSamples.event_without_id]
           MoreSamples.thread_without_name
           [element "File" [("id", "2"); ("Name", "util.c")] []] "Thread").
  - by vm_compute.
  - done.
  - intros n Hn Htag. elem_cases Hn; discriminate Htag.
  - done.
  - right. by vm_compute.
Defined.

Lemma unconvertible_id_exception_witness :
  get_id_to_names MoreSamples.parser MoreSamples.bad_id_text "File" = Throw invalid_argument.
Proof.
  destruct (unconvertible_id_exception MoreSamples.parser MoreSamples.bad_id_text
              MoreSamples.bad_id [] MoreSamples.bad_id_file [] "File" "one" invalid_argument)
    as (_ & Hnames & _).
  - by vm_compute.
  - done.
  - done.
  - done.
  - done.
  - apply Hnames. constructor.
Defined.

Lemma nothing_after_matching_source_is_read_witness :
  get_source_module_verbosity MoreSamples.parser 1 MoreSamples.twice_source_text
  = get_source_module_verbosity MoreSamples.parser 1 MoreSamples.once_source_text
  /\ get_source_parser_file_path MoreSamples.parser 1 MoreSamples.twice_source_text
     = get_source_parser_file_path MoreSamples.parser 1 MoreSamples.once_source_text.
Proof.
  apply (nothing_after_matching_source_is_read MoreSamples.parser
           MoreSamples.twice_source_text MoreSamples.once_source_text
           MoreSamples.twice_source MoreSamples.once_source
           [] MoreSamples.first_of_two [MoreSamples.second_of_two] [] 1).
  - by vm_compute.
  - done.
  - by vm_compute.
  - done.
  - constructor.
  - done.
  - done.
Defined.

Lemma source_calls_read_their_own_children_witness :
  get_source_module_verbosity MoreSamples.parser 1 MoreSamples.once_source_text
  = get_source_module_verbosity MoreSamples.parser 1 MoreSamples.modules_only_text.
Proof.
  destruct (source_calls_read_their_own_children MoreSamples.parser
              MoreSamples.once_source_text MoreSamples.modules_only_text
              MoreSamples.once_source MoreSamples.modules_only
              MoreSamples.first_of_two MoreSamples.modules_only_source 1)
    as [Hmodules _].
  - by vm_compute.
  - by vm_compute.
  - by vm_compute.
  - by vm_compute.
  - apply Hmodules. by vm_compute.
Defined.

Lemma first_module_verbosity_wins_witness :
  exists m, get_source_module_verbosity MoreSamples.parser 1 MoreSamples.once_source_text = Ok m
            /\ m !! 2 = Some 3.
Proof.
  destruct (get_source_module_verbosity MoreSamples.parser 1 MoreSamples.once_source_text)
    as [m| |] eqn:Hm; try (vm_compute in Hm; discriminate).
  destruct (first_module_verbosity_wins MoreSamples.parser MoreSamples.once_source_text 1
              MoreSamples.once_source MoreSamples.first_of_two
              [element "File" [("Path", "one.xml")] []]
              (element "Module" [("id", "2"); ("verbosity", "3")] [])
              [element "Module" [("id", "2"); ("verbosity", "9")] []] 2 m)
    as (verbosity & Hverbosity & Hlookup).
  - by vm_compute.
  - by vm_compute.
  - done.
  - done.
  - done.
  - intros n Hn Htag. elem_cases Hn. discriminate Htag.
  - done.
  - exists m. split; [done|]. vm_compute in Hverbosity. congruence.
Defined.

Lemma module_verbosity_source_not_found_witness :
  get_source_module_verbosity MoreSamples.parser 9 Samples.definitions_text
  = Throw (invalid_value_exception "Did not find 'Source' node with id 9").
Proof.
  apply (module_verbosity_source_not_found MoreSamples.parser Samples.definitions_text
           Samples.definitions [Samples.hw_source; Samples.fw_source] 9).
  - by vm_compute.
  - done.
  - each_node ltac:(intros _; eexists; split; [by vm_compute|done]).
Defined.

Lemma get_event_data_reads_last_and_concatenates_witness :
  (exists s, last (attribute_values "numberOfArguments" (attributes MoreSamples.repeated_event))
             = Some s /\ stoi s = Ok 1)
  /\ "a {0} b" = concat_values (attribute_values "format" (attributes MoreSamples.repeated_event)).
Proof.
  apply (get_event_data_reads_last_and_concatenates MoreSamples.repeated_event 1 "a {0} b").
  by vm_compute.
Defined.

Lemma get_enum_values_in_document_order_witness :
  length [(1, "ON"); (0, "OFF")]
  = length (List.filter (has_tag "EnumValue") (children Samples.power_enum)).
Proof.
  apply (get_enum_values_in_document_order Samples.power_enum [(1, "ON"); (0, "OFF")]).
  by vm_compute.
Defined.

Lemma enums_read_groups_with_attributes_witness :
  get_enums MoreSamples.parser MoreSamples.split_enums_text
  = get_enums MoreSamples.parser MoreSamples.joined_enums_text.
Proof.
  apply (enums_read_groups_with_attributes MoreSamples.parser
           MoreSamples.split_enums_text MoreSamples.joined_enums_text
           MoreSamples.split_enums MoreSamples.joined_enums
           MoreSamples.split_enums_nodes MoreSamples.joined_enums_nodes).
  - by vm_compute.
  - done.
  - by vm_compute.
  - done.
  - by vm_compute.
Defined.

Lemma enums_table_keys_witness :
  exists m, get_enums MoreSamples.parser MoreSamples.split_enums_text = Ok m
            /\ is_Some (m !! "") /\ is_Some (m !! "Mode").
Proof.
  destruct (get_enums MoreSamples.parser MoreSamples.split_enums_text) as [m| |] eqn:Hm;
    try (vm_compute in Hm; discriminate).
  destruct (enums_table_keys MoreSamples.parser MoreSamples.split_enums_text
              MoreSamples.split_enums MoreSamples.split_enums_nodes m) as [Hkeys _].
  - by vm_compute.
  - done.
  - done.
  - exists m. split; [done|]. split; apply Hkeys.
    + exists MoreSamples.described_group, (Attr "Id" "7").
      split; [right; by left|]. split; [by left|done].
    + exists MoreSamples.described_group, (Attr "Name" "Mode").
      split; [right; by left|]. split; [right; by left|done].
Defined.

Lemma enums_table_pairs_valid_witness : Forall valid_pair [(1, "ON"); (0, "OFF")].
Proof.
  destruct (get_enums Samples.parser Samples.enums_text) as [m| |] eqn:Hm;
    try (vm_compute in Hm; discriminate).
  apply (enums_table_pairs_valid Samples.parser Samples.enums_text m "Power").
  - done.
  - vm_compute in Hm. injection Hm as <-. reflexivity.
Defined.

(** ** What a returned value of the definitions calls stands for *)

Lemma get_verbosity_attribute_range node v :
  get_verbosity_attribute node = Ok v -> INT_MIN <= v <= INT_MAX.
Proof.
  unfold get_verbosity_attribute.
  destruct (find_attribute "verbosity" (attributes node)); [|done]. apply stoi_range.
Qed.

Section ReturnedValues.
Variable xml_parse : list ascii -> option xml_document.

(** X18. A map returned by [get_source_module_verbosity] belongs to a
    [Source] node with the requested id: its keys are exactly the ids of
    the [Module] children of that node, and ids and verbosities are in the
    range of [int]. *)
Theorem module_verbosity_belongs_to_source xml document nodes source_id m :
  xml_parse (string_to_char_buffer xml) = Some document ->
  get_first_node document = Ok nodes ->
  get_source_module_verbosity xml_parse source_id xml = Ok m ->
  exists source,
    source ∈ nodes /\ name source = "Source" /\ get_id_attribute source = Ok source_id
    /\ (forall k, is_Some (m !! k)
                  <-> exists module, module ∈ children source /\ name module = "Module"
                                     /\ get_id_attribute module = Ok k)
    /\ (forall k v, m !! k = Some v ->
                    INT_MIN <= k <= INT_MAX /\ INT_MIN <= v <= INT_MAX).
Proof.
  intros Hparse Hfirst.
  rewrite (get_source_module_verbosity_parsed _ _ _ _ Hparse).
  intros (source & Hsource & Hscan)%bind_ok.
  unfold get_source_node in Hsource. rewrite Hfirst in Hsource. simpl in Hsource.
  apply get_source_node_loop_elem in Hsource as (Hin & Htag & Hid).
  exists source. repeat (split; [done|]). split.
  - intros k. by apply (scan_insert_keys "Module" get_verbosity_attribute).
  - apply (scan_insert_entries "Module" get_verbosity_attribute
             (fun k v => INT_MIN <= k <= INT_MAX /\ INT_MIN <= v <= INT_MAX)
             (children source) m); [|done].
    intros node k v Hk Hv. split.
    + by apply (get_id_attribute_range node).
    + by apply (get_verbosity_attribute_range node).
Qed.

(** X19. With the source found, [get_source_module_verbosity] returns a
    map exactly when every [Module] child of the source has an integer id
    and an integer verbosity. *)
Theorem module_verbosity_returned_iff_modules_readable xml document source_id source :
  xml_parse (string_to_char_buffer xml) = Some document ->
  get_source_node source_id document = Ok source ->
  is_ok (get_source_module_verbosity xml_parse source_id xml) = true
  <-> forall module, module ∈ children source -> name module = "Module" ->
        is_ok (get_id_attribute module) = true
        /\ is_ok (get_verbosity_attribute module) = true.
Proof.
  intros Hparse Hsource.
  rewrite (get_source_module_verbosity_parsed _ _ _ _ Hparse), Hsource. simpl.
  by rewrite scan_insert_ok_iff, Forall_forall.
Qed.

(** X20. A path returned by [get_source_parser_file_path] is not empty and
    is the [Path] attribute of a [File] child of a [Source] node with the
    requested id. *)
Theorem returned_path_is_a_file_path xml document nodes source_id path :
  xml_parse (string_to_char_buffer xml) = Some document ->
  get_first_node document = Ok nodes ->
  get_source_parser_file_path xml_parse source_id xml = Ok path ->
  path <> ""
  /\ exists source file,
       source ∈ nodes /\ name source = "Source" /\ get_id_attribute source = Ok source_id
       /\ file ∈ children source /\ name file = "File"
       /\ find_attribute "Path" (attributes file) = Some path.
Proof.
  intros Hparse Hfirst.
  rewrite (get_source_parser_file_path_parsed _ _ _ _ Hparse).
  intros (source & Hsource & Hpath)%bind_ok.
  unfold get_source_node in Hsource. rewrite Hfirst in Hsource. simpl in Hsource.
  apply get_source_node_loop_elem in Hsource as (Hin & Htag & Hid).
  destruct (string_empty (get_file_path source)) eqn:Hempty; [done|].
  injection Hpath as <-.
  assert (Hne : get_file_path source <> "").
  { intros Heq%string_empty_true. congruence. }
  split; [done|].
  destruct (first_path_or_none source)
    as [(before & file & after & Hsplit & Hfile & Hattr & _)|Hnone].
  - exists source, file. repeat (split; [done|]). split; [|done].
    rewrite Hsplit. apply elem_of_app. right. by left.
  - by apply get_file_path_none in Hnone.
Qed.

End ReturnedValues.

Lemma module_verbosity_belongs_to_source_witness :
  exists source,
    source ∈ [Samples.hw_source; Samples.fw_source]
    /\ name source = "Source" /\ get_id_attribute source = Ok 1.
Proof.
  destruct (module_verbosity_belongs_to_source MoreSamples.parser Samples.definitions_text
              Samples.definitions [Samples.hw_source; Samples.fw_source] 1 {[ 7 := 0 ]})
    as (source & Hin & Htag & Hid & _).
  - by vm_compute.
  - done.
  - by vm_compute.
  - by exists source.
Defined.

Lemma module_verbosity_returned_iff_modules_readable_witness :
  is_ok (get_source_module_verbosity MoreSamples.parser 1 MoreSamples.once_source_text) = true.
Proof.
  apply (module_verbosity_returned_iff_modules_readable MoreSamples.parser
           MoreSamples.once_source_text MoreSamples.once_source 1 MoreSamples.first_of_two).
  - by vm_compute.
  - by vm_compute.
  - intros module Hmodule Htag.
    elem_cases Hmodule; try discriminate Htag; by vm_compute.
Defined.

Lemma returned_path_is_a_file_path_witness : "fw.xml" <> "".
Proof.
  apply (returned_path_is_a_file_path MoreSamples.parser Samples.definitions_text
           Samples.definitions [Samples.hw_source; Samples.fw_source] 1 "fw.xml").
  - by vm_compute.
  - done.
  - by vm_compute.
Defined.

